(** * kcctl join: the node-join orchestrator of pkg/cli/join/join.go

    A shallow embedding of [JoinOptions] and its methods.  The Go code
    talks to remote hosts, the local file system and the deploy-config
    file; here every such interaction appends an [Event] to a trace and
    gets its answer from an [Oracle] that sees the history so far, so a
    run of the program is a function of its initial state and of the
    environment's answers. *)

From Stdlib Require Import ZArith Lia Ascii.
From stdpp Require Import base option list gmap strings sorting pretty.


(** ** Outcomes and the orchestrator monad *)

(** [Err] is a non-nil Go [error] handed back to the caller.  [Fatal] is
    the process ending on the spot: [utils.CheckErr] on a non-nil error,
    [logger.Fatalf], or a run-time panic. *)
Inductive outcome (A : Type) : Type :=
| Ok (a : A)
| Err (e : string)
| Fatal (e : string).
Arguments Ok {A} a.
Arguments Err {A} e.
Arguments Fatal {A} e.

Definition is_Ok {A} (r : outcome A) : bool :=
  match r with Ok _ => true | _ => false end.

(** ** Data of the deploy configuration *)

(** options.Agents: Go [map[string][]string], region to addresses. *)
Abbreviation Agents := (gmap string (list string)).

Record MQ := mkMQ {
  IPs : list string;
  Port : Z;
  External : bool;
  User : string;
  Secret : string;
  TLS : bool;
  CA : string;
  ClientCert : string;
  ClientKey : string }.

Record OpLog := mkOpLog {
  Dir : string;
  Threshold : Z }.

(** The SSH settings are an opaque handle for the join code: it only
    passes them on to the transport. *)
Record SSH := mkSSH { sshHandle : string }.

Record DeployConfig := mkDeployConfig {
  Config : string;
  SSHConfig : SSH;
  DefaultRegion : string;
  ServerIPs : list string;
  AgentRegions : Agents;
  mq : MQ;
  opLog : OpLog;
  Pkg : string;
  Debug : bool;
  StaticServerPort : Z }.

Record JoinOptions := mkJoinOptions {
  deployConfig : DeployConfig;
  agents : list string;
  agentRegion : Agents;
  servers : list string }.

(** sshutils.Result, as far as join.go reads it. *)
Record Result := mkResult {
  ExitCode : Z;
  Stdout : string;
  Stderr : string }.

(** Values stored in the template's [map[string]interface{}]. *)
Inductive Value :=
| VString (s : string)
| VBool (b : bool)
| VStrings (l : list string)
| VInt (z : Z).

(** ** Interactions with the outside world *)

Inductive Event :=
| EvSudoPreCheck (name : string) (nodes : list string)
| EvSSHCmdWithSudo (host cmd : string)
| EvSendPackageV2 (pkg : string) (hosts : list string) (dst : string)
                  (hook : option string)
| EvDownloadSudo (host remote local : string)
| EvIsFileExist (file : string)
| EvWrite (cfg : DeployConfig)
| EvUUID.

(** Calls that go over the SSH transport. *)
Definition is_transport (e : Event) : bool :=
  match e with
  | EvSudoPreCheck _ _ | EvSSHCmdWithSudo _ _
  | EvSendPackageV2 _ _ _ _ | EvDownloadSudo _ _ _ => true
  | EvIsFileExist _ | EvWrite _ | EvUUID => false
  end.

(** The environment's answers; each one may depend on everything that
    happened before.  [range_order] is the order in which a Go [range]
    over a map visits the keys. *)
Record Oracle := mkOracle {
  sudo_reply : list Event -> string -> list string -> bool;
  ssh_reply : list Event -> string -> string -> Result * option string;
  send_reply : list Event -> string -> list string -> string ->
               option string -> option string;
  download_reply : list Event -> string -> string -> string -> option string;
  stat_reply : list Event -> string -> option string;
  write_reply : list Event -> DeployConfig -> option string;
  uuid_reply : list Event -> string;
  range_order : list Event -> Agents -> list string }.

(** Go visits every key of the map once, in an order of its choosing. *)
Definition range_ok (O : Oracle) : Prop :=
  forall h (m : Agents), range_order O h m ≡ₚ (map_to_list m).*1.

(** Constants and pure helpers that join.go imports from packages
    outside src/ (config, options, sshutils, path/filepath,
    text/template, BuildAgentRegion of the same package). *)
Record Lib := mkLib {
  DefaultPkgPath : string;
  KcAgentService : string;
  KcAgentConfigTmpl : string;
  DefaultKcAgentConfigPath : string;
  DefaultCaPath : string;
  DefaultNatsPKIPath : string;
  filepath_Join : list string -> string;
  filepath_Base : string -> string;
  filepath_Dir : string -> string;
  path_Base : string -> string;
  WrapEcho : string -> string -> string;
  template_Parse : string -> option string;
  template_Execute : string -> gmap string Value -> string + string;
  BuildAgentRegion : list string -> string -> string + Agents }.

(** ** Program state *)

Record State := mkState {
  jo : JoinOptions;
  trace : list Event;
  disk : option DeployConfig;
  files : gset string }.

Definition M (A : Type) : Type := State -> outcome A * State.

Definition ret {A} (a : A) : M A := fun s => (Ok a, s).

Definition bind {A B} (m : M A) (k : A -> M B) : M B :=
  fun s =>
    match m s with
    | (Ok a, s') => k a s'
    | (Err e, s') => (Err e, s')
    | (Fatal e, s') => (Fatal e, s')
    end.

Definition fail {A} (e : string) : M A := fun s => (Err e, s).
Definition fatal {A} (e : string) : M A := fun s => (Fatal e, s).

Notation "'do' x <- m ; k" := (bind m (fun x => k))
  (at level 10, x pattern, m at level 100, k at level 200,
   format "'[v' 'do'  x  <-  m ; '/' k ']'").
Notation "m ;;; k" := (bind m (fun _ => k))
  (at level 100, k at level 200, right associativity).

Definition get_jo : M JoinOptions := fun s => (Ok (jo s), s).
Definition get_trace : M (list Event) := fun s => (Ok (trace s), s).

Definition set_jo (c : JoinOptions) (s : State) : State :=
  mkState c (trace s) (disk s) (files s).
Definition add_event (e : Event) (s : State) : State :=
  mkState (jo s) (trace s ++ [e]) (disk s) (files s).
Definition set_disk (d : DeployConfig) (s : State) : State :=
  mkState (jo s) (trace s) (Some d) (files s).
Definition add_file (f : string) (s : State) : State :=
  mkState (jo s) (trace s) (disk s) ({[f]} ∪ files s).

Definition put_jo (c : JoinOptions) : M unit := fun s => (Ok tt, set_jo c s).
Definition emit (e : Event) : M unit := fun s => (Ok tt, add_event e s).

Definition set_deployConfig (d : DeployConfig) (c : JoinOptions) : JoinOptions :=
  mkJoinOptions d (agents c) (agentRegion c) (servers c).
Definition set_AgentRegions (a : Agents) (d : DeployConfig) : DeployConfig :=
  mkDeployConfig (Config d) (SSHConfig d) (DefaultRegion d) (ServerIPs d) a
                 (mq d) (opLog d) (Pkg d) (Debug d) (StaticServerPort d).
Definition set_Config (p : string) (d : DeployConfig) : DeployConfig :=
  mkDeployConfig p (SSHConfig d) (DefaultRegion d) (ServerIPs d)
                 (AgentRegions d) (mq d) (opLog d) (Pkg d) (Debug d)
                 (StaticServerPort d).

(** utils.CheckErr: a non-nil error ends the process. *)
Definition CheckErr {A} (m : M A) : M A :=
  fun s =>
    match m s with
    | (Err e, s') => (Fatal e, s')
    | r => r
    end.

(** errors.Wrap / errors.WithMessage: both print as "msg: cause". *)
Definition errors_Wrap (e msg : string) : string := msg +:+ ": " +:+ e.

(** ** Collaborators declared outside src/ *)

(** Modelled from the spec: Agents.Exists is declared outside src/; the
    membership check asks whether the address is already in
    Topology.AgentRegions, under any region. *)
Definition Agents_Exists (a : Agents) (ip : string) : bool :=
  existsb (fun rl : string * list string => bool_decide (ip ∈ snd rl))
          (map_to_list a).

(** Modelled from the spec: Agents.Add is declared outside src/; it
    inserts the address under its region, creating the region bucket if
    it is new. *)
Definition Agents_Add (region ip : string) (a : Agents) : Agents :=
  <[region := default [] (a !! region) ++ [ip]]> a.

(** Modelled from the spec: Agents.ListIP is declared outside src/; it
    yields the expanded address list, the addresses of every region
    bucket. *)
Definition Agents_ListIP (a : Agents) : list string :=
  concat (map_to_list a).*2.

(** Modelled from the spec: Result.Error is declared outside src/; any
    non-zero exit status is a failure. *)
Definition Result_Error (r : Result) : option string :=
  if (ExitCode r =? 0)%Z then None
  else Some ("exit status " +:+ pretty (ExitCode r) +:+ ": " +:+ Stderr r).

(** k8s sets.NewString(l...).List(): the distinct strings in ascending
    order. *)
Definition sets_List (l : list string) : list string :=
  merge_sort String.le (remove_dups l).

(** fmt.Sprintf of "%s:%d". *)
Definition host_port (h : string) (p : Z) : string := h +:+ ":" +:+ pretty p.

Definition probe_cmd : string :=
  "systemctl --all --type service | grep -Fq kc-agent".
Definition enable_cmd : string :=
  "systemctl daemon-reload && systemctl enable kc-agent --now".
Definition mkdir_cmd : string := "mkdir -pv /etc/kubeclipper-agent ".

(** Which [return] of the cobra [Run] closure ended the invocation. *)
Inductive RunExit := ExitPreflight | ExitJoined.

(** [if err != nil { return wrap(err) }] around a call. *)
Definition wrap_err {A} (f : string -> string) (m : M A) : M A :=
  fun s =>
    match m s with
    | (Err e, s') => (Err (f e), s')
    | r => r
    end.

(** A call whose error the caller inspects instead of returning it. *)
Definition try {A} (m : M A) : M (string + A) :=
  fun s =>
    match m s with
    | (Ok a, s') => (Ok (inr a), s')
    | (Err e, s') => (Ok (inl e), s')
    | (Fatal e, s') => (Fatal e, s')
    end.

(** ** The join command *)

Section Join.
Context (L : Lib) (O : Oracle).

(** *** Transport, file system and persistence primitives

    sudo.PreCheck, sshutils.SSHCmdWithSudo, utils.SendPackageV2,
    SSH.DownloadSudo, sshutils.IsFileExist and uuid.New are declared
    outside src/.  Each call is recorded in the trace and answered by
    the environment. *)

Definition sudo_PreCheck (name : string) (nodes : list string) : M bool :=
  fun s => (Ok (sudo_reply O (trace s) name nodes),
            add_event (EvSudoPreCheck name nodes) s).

Definition SSHCmdWithSudo (host cmd : string) : M Result :=
  fun s =>
    let s1 := add_event (EvSSHCmdWithSudo host cmd) s in
    match ssh_reply O (trace s) host cmd with
    | (_, Some e) => (Err e, s1)
    | (r, None) => (Ok r, s1)
    end.

Definition SendPackageV2 (pkg : string) (hosts : list string) (dst : string)
    (hook : option string) : M unit :=
  fun s =>
    let s1 := add_event (EvSendPackageV2 pkg hosts dst hook) s in
    match send_reply O (trace s) pkg hosts dst hook with
    | Some e => (Err e, s1)
    | None => (Ok tt, s1)
    end.

(** Modelled from the spec: DownloadSudo fetches the remote file to
    local storage; a download that succeeds leaves the file there. *)
Definition DownloadSudo (host remote local : string) : M unit :=
  fun s =>
    let s1 := add_event (EvDownloadSudo host remote local) s in
    match download_reply O (trace s) host remote local with
    | Some e => (Err e, s1)
    | None => (Ok tt, add_file local s1)
    end.

(** Modelled from the spec: IsFileExist tells whether the file is
    already cached locally, unless the check itself fails. *)
Definition IsFileExist (file : string) : M bool :=
  fun s =>
    let s1 := add_event (EvIsFileExist file) s in
    match stat_reply O (trace s) file with
    | Some e => (Err e, s1)
    | None => (Ok (bool_decide (file ∈ files s)), s1)
    end.

Definition uuid_New : M string :=
  fun s => (Ok (uuid_reply O (trace s)), add_event EvUUID s).

(** Modelled from the spec: DeployConfig.Write is declared outside src/;
    it serializes the entire in-memory Topology and writes it to durable
    storage; when the write fails the node stays unrecorded. *)
Definition DeployConfig_Write : M unit :=
  fun s =>
    let d := deployConfig (jo s) in
    let s1 := add_event (EvWrite d) s in
    match write_reply O (trace s) d with
    | Some e => (Err e, s1)
    | None => (Ok tt, set_disk d s1)
    end.

(** Modelled from the spec: DeployConfig.Complete is declared outside
    src/; the Topology is loaded once at the start of a join invocation,
    from the file the --deploy-config flag names. *)
Definition DeployConfig_Complete : M unit :=
  fun s =>
    match disk s with
    | None => (Err "load deploy config failed", s)
    | Some d =>
        let path := Config (deployConfig (jo s)) in
        (Ok tt, set_jo (set_deployConfig (set_Config path d) (jo s)) s)
    end.

(** *** Complete and ValidateArgs *)

Definition Complete : M unit :=
  DeployConfig_Complete ;;;
  do c <- get_jo;
  do agents_ <- CheckErr
    (match BuildAgentRegion L (agents c) (DefaultRegion (deployConfig c)) with
     | inl e => fail e
     | inr a => ret a
     end);
  put_jo (mkJoinOptions (deployConfig c) (agents c) agents_
                        (sets_List (servers c))).

Definition no_agent_msg : string := "must specified at least one agent node".
Definition no_server_msg : string :=
  "join an agent node requires specifying at least one server node".

Definition ValidateArgs : M unit :=
  do c <- get_jo;
  if Nat.eqb (length (agents c)) 0 then fail no_agent_msg
  else if Nat.eqb (length (ServerIPs (deployConfig c))) 0
       then fail no_server_msg
       else ret tt.

(** *** Preflight *)

Definition preCheckKcAgent (ip : string) : M bool :=
  do c <- get_jo;
  if Agents_Exists (AgentRegions (deployConfig c)) ip then ret false
  else
    do r <- try (SSHCmdWithSudo ip probe_cmd);
    match r with
    | inl _ => ret false
    | inr res =>
        if (ExitCode res =? 0)%Z && negb (String.eqb (Stdout res) "")
        then ret false
        else ret true
    end.

Fixpoint preCheck_agents (ips : list string) : M bool :=
  match ips with
  | [] => ret true
  | agent :: rest =>
      do ok <- preCheckKcAgent agent;
      if negb ok then ret false else preCheck_agents rest
  end.

Definition preCheck : M bool :=
  do c <- get_jo;
  do ok <- sudo_PreCheck "sudo" (Agents_ListIP (agentRegion c) ++ servers c);
  if negb ok then ret false
  else preCheck_agents (Agents_ListIP (agentRegion c)).

(** *** Trust material *)

Fixpoint sendCerts_download (fs : list string) : M unit :=
  match fs with
  | [] => ret tt
  | file :: rest =>
      do exist_ <- wrap_err (fun e => errors_Wrap e "check file exist")
                           (IsFileExist file);
      (if negb exist_ then
         do c <- get_jo;
         match ServerIPs (deployConfig c) with
         | [] => fatal "index out of range"
         | server0 :: _ =>
             wrap_err (fun e => errors_Wrap e "download cert from server")
                      (DownloadSudo server0 file file)
         end
       else ret tt) ;;;
      sendCerts_download rest
  end.

Definition sendCerts : M unit :=
  do c <- get_jo;
  let m := mq (deployConfig c) in
  sendCerts_download [CA m; ClientCert m; ClientKey m] ;;;
  if TLS m then
    let destCa := if External m then filepath_Dir L (CA m)
      else filepath_Join L [DefaultKcAgentConfigPath L; DefaultCaPath L] in
    let destCert := if External m then filepath_Dir L (ClientCert m)
      else filepath_Join L [DefaultKcAgentConfigPath L; DefaultNatsPKIPath L] in
    let destKey := if External m then filepath_Dir L (ClientKey m)
      else filepath_Join L [DefaultKcAgentConfigPath L; DefaultNatsPKIPath L] in
    SendPackageV2 (CA m) (Agents_ListIP (agentRegion c)) destCa None ;;;
    SendPackageV2 (ClientCert m) (Agents_ListIP (agentRegion c)) destCert None ;;;
    SendPackageV2 (ClientKey m) (Agents_ListIP (agentRegion c)) destKey None
  else ret tt.

(** *** Agent configuration *)

Definition log_level (debug : bool) : string :=
  if debug then "debug" else "info".

Definition mq_endpoints (m : MQ) : list string :=
  map (fun v => host_port v (Port m)) (IPs m).

(** The three TLS paths are set only when MQ.TLS is on. *)
Definition tls_fields (m : MQ) (data : gmap string Value) : gmap string Value :=
  if TLS m then
    if External m then
      <["MQClientKeyPath" := VString (ClientKey m)]>
        (<["MQClientCertPath" := VString (ClientCert m)]>
           (<["MQCaPath" := VString (CA m)]> data))
    else
      <["MQClientKeyPath" := VString (filepath_Join L
           [DefaultKcAgentConfigPath L; DefaultNatsPKIPath L;
            filepath_Base L (ClientKey m)])]>
        (<["MQClientCertPath" := VString (filepath_Join L
             [DefaultKcAgentConfigPath L; DefaultNatsPKIPath L;
              filepath_Base L (ClientCert m)])]>
           (<["MQCaPath" := VString (filepath_Join L
                [DefaultKcAgentConfigPath L; DefaultCaPath L;
                 filepath_Base L (CA m)])]> data))
  else data.

(** The [data] map of getKcAgentConfigTemplateContent, filled in the
    order of the source. *)
Definition agent_config_data (region agentID server0 : string)
    (port : Z) (debug : bool) (m : MQ) (ol : OpLog) : gmap string Value :=
  <["OpLogThreshold" := VInt (Threshold ol)]>
    (<["OpLogDir" := VString (Dir ol)]>
       (tls_fields m
          (<["MQTLS" := VBool (TLS m)]>
             (<["MQAuthToken" := VString (Secret m)]>
                (<["MQUser" := VString (User m)]>
                   (<["MQExternal" := VBool (External m)]>
                      (<["MQServerEndpoints" := VStrings (mq_endpoints m)]>
                         (<["LogLevel" := VString (log_level debug)]>
                            (<["StaticServerAddress" :=
                                 VString ("http://" +:+ host_port server0 port)]>
                               (<["AgentID" := VString agentID]>
                                  (<["Region" := VString region]> ∅))))))))))).

Definition getKcAgentConfigTemplateContent (region : string) : M string :=
  match template_Parse L (KcAgentConfigTmpl L) with
  | Some e => fatal ("template parse failed: " +:+ e)
  | None =>
      do c <- get_jo;
      let d := deployConfig c in
      do agentID <- uuid_New;
      match ServerIPs d with
      | [] => fatal "index out of range"
      | server0 :: _ =>
          match template_Execute L (KcAgentConfigTmpl L)
                  (agent_config_data region agentID server0
                     (StaticServerPort d) (Debug d) (mq d) (opLog d)) with
          | inl e => fatal ("template execute failed: " +:+ e)
          | inr text => ret text
          end
      end
  end.

(** *** Provisioning and activation of one agent *)

Definition hook_cmd (pkg : string) : string :=
  "rm -rf " +:+ filepath_Join L [DefaultPkgPath L; "kc"] +:+
  " && tar -xvf " +:+ filepath_Join L [DefaultPkgPath L; path_Base L pkg] +:+
  " -C " +:+ DefaultPkgPath L +:+
  " && cp -rf " +:+
  filepath_Join L [DefaultPkgPath L; "kc/bin/kubeclipper-agent"] +:+
  " /usr/local/bin/".

Fixpoint run_cmdList (node : string) (cmdList : list string) : M unit :=
  match cmdList with
  | [] => ret tt
  | cmd :: rest =>
      do res <- SSHCmdWithSudo node cmd;
      match Result_Error res with
      | Some e => fail e
      | None => run_cmdList node rest
      end
  end.

Definition agentNodeFiles (region node : string) : M unit :=
  do c <- get_jo;
  let pkg := Pkg (deployConfig c) in
  wrap_err (fun e => errors_Wrap e "SendPackageV2")
    (SendPackageV2 pkg [node] (DefaultPkgPath L) (Some (hook_cmd pkg))) ;;;
  sendCerts ;;;
  do agentConfig <- getKcAgentConfigTemplateContent region;
  run_cmdList node
    [WrapEcho L (KcAgentService L) "/usr/lib/systemd/system/kc-agent.service";
     mkdir_cmd;
     WrapEcho L agentConfig "/etc/kubeclipper-agent/kubeclipper-agent.yaml"].

Definition enableAgent (region node : string) : M unit :=
  wrap_err (fun e => errors_Wrap e "enable kc agent")
    (do res <- SSHCmdWithSudo node enable_cmd;
     match Result_Error res with
     | Some e => fail e
     | None => ret tt
     end) ;;;
  do c <- get_jo;
  let d := deployConfig c in
  put_jo (set_deployConfig
            (set_AgentRegions (Agents_Add region node (AgentRegions d)) d) c) ;;;
  DeployConfig_Write.

(** *** The join loops *)

Fixpoint join_agents (region : string) (agents_ : list string) : M unit :=
  match agents_ with
  | [] => ret tt
  | agent :: rest =>
      agentNodeFiles region agent ;;;
      enableAgent region agent ;;;
      join_agents region rest
  end.

Fixpoint join_regions (m : Agents) (regions : list string) : M unit :=
  match regions with
  | [] => ret tt
  | region :: rest =>
      join_agents region (default [] (m !! region)) ;;;
      join_regions m rest
  end.

(** The [range] over c.agentRegion visits the regions in the order the
    environment picks at that point of the run. *)
Definition runJoinAgentNode : M unit :=
  do c <- get_jo;
  do h <- get_trace;
  join_regions (agentRegion c) (range_order O h (agentRegion c)).

Definition checkServerNode (node : string) : M unit := ret tt.
Definition serverNodeFiles : M unit := ret tt.
Definition enableServerService : M unit := ret tt.

Fixpoint checkServerNodes (nodes : list string) : M unit :=
  match nodes with
  | [] => ret tt
  | node :: rest => checkServerNode node ;;; checkServerNodes rest
  end.

Definition runJoinServerNode : M unit :=
  do c <- get_jo;
  checkServerNodes (ServerIPs (deployConfig c)).

Definition server_failed (e : string) : string :=
  "join server node failed: " +:+ e.
Definition agent_failed (e : string) : string :=
  "join agent node failed: " +:+ e.

Definition RunJoinNode : M unit :=
  wrap_err server_failed runJoinServerNode ;;;
  wrap_err agent_failed runJoinAgentNode.

Definition RunJoinFunc : M unit := RunJoinNode.

(** The [Run] closure of NewCmdJoin. *)
Definition Run : M RunExit :=
  CheckErr Complete ;;;
  CheckErr ValidateArgs ;;;
  do ok <- preCheck;
  if negb ok then ret ExitPreflight
  else CheckErr RunJoinFunc ;;; ret ExitJoined.

End Join.

(** ** A concrete instance of the imported helpers

    Stand-ins with the behaviour of the Go helpers on the inputs used
    below: paths joined with a slash, [Base] and [Dir] split at the last
    slash, agent tokens of the form [[region:]address[,address]*], and a
    renderer that prints every field of the data map. *)
Module Demo.

Fixpoint split_on (sep : Ascii.ascii) (cur : string) (s : string) : list string :=
  match s with
  | EmptyString => [cur]
  | String ch rest =>
      if Ascii.eqb ch sep then cur :: split_on sep "" rest
      else split_on sep (cur +:+ String ch "") rest
  end.

Definition join_with (sep : string) (l : list string) : string :=
  String.concat sep l.

Definition Base (p : string) : string :=
  List.last (split_on "/"%char "" p) "".

Definition Dir (p : string) : string :=
  join_with "/" (removelast (split_on "/"%char "" p)).

Definition add_token (region0 : string) (acc : Agents * list string)
    (tok : string) : Agents * list string :=
  let '(region, rest) :=
    match split_on ":"%char "" tok with
    | [r; a] => (r, a)
    | _ => (region0, tok)
    end in
  fold_left
    (fun (st : Agents * list string) ip =>
       if bool_decide (ip ∈ st.2) then st
       else (<[region := default [] (st.1 !! region) ++ [ip]]> st.1,
             st.2 ++ [ip]))
    (split_on ","%char "" rest) acc.

Definition build_agents (toks : list string) (region0 : string)
    : string + Agents :=
  match toks with
  | [] => inl "empty agent list"
  | _ => inr (fold_left (add_token region0) toks (∅, [])).1
  end.

Definition show_value (v : Value) : string :=
  match v with
  | VString s => s
  | VBool b => if b then "true" else "false"
  | VStrings l => join_with "," l
  | VInt z => pretty z
  end.

Definition keys : list string :=
  ["Region"; "AgentID"; "StaticServerAddress"; "LogLevel";
   "MQServerEndpoints"; "MQExternal"; "MQUser"; "MQAuthToken"; "MQTLS";
   "MQCaPath"; "MQClientCertPath"; "MQClientKeyPath";
   "OpLogDir"; "OpLogThreshold"].

Definition render (tmpl : string) (data : gmap string Value) : string + string :=
  inr (tmpl +:+ join_with ";"
         (omap (fun k => (fun v => k +:+ "=" +:+ show_value v) <$> data !! k)
               keys)).

Definition lib : Lib :=
  {| DefaultPkgPath := "/tmp";
     KcAgentService := "[Unit]";
     KcAgentConfigTmpl := "agent:";
     DefaultKcAgentConfigPath := "/etc/kubeclipper-agent";
     DefaultCaPath := "pki";
     DefaultNatsPKIPath := "pki/nats";
     filepath_Join := join_with "/";
     filepath_Base := Base;
     filepath_Dir := Dir;
     path_Base := Base;
     WrapEcho := fun content path => "echo '" +:+ content +:+ "' > " +:+ path;
     template_Parse := fun _ => None;
     template_Execute := render;
     BuildAgentRegion := build_agents |}.

(** An environment in which every remote call succeeds: commands exit
    with status 0 and print nothing, no file operation fails, and a map
    is visited in the order [sel] picks. *)
Definition calm (sel : Agents -> list string) : Oracle :=
  {| sudo_reply := fun _ _ _ => true;
     ssh_reply := fun _ _ _ => (mkResult 0 "" "", None);
     send_reply := fun _ _ _ _ _ => None;
     download_reply := fun _ _ _ _ => None;
     stat_reply := fun _ _ => None;
     write_reply := fun _ _ => None;
     uuid_reply := fun _ => "00000000-0000-4000-8000-000000000000";
     range_order := fun _ m => sel m |}.

Definition by_key (m : Agents) : list string := (map_to_list m).*1.
Definition ascending (m : Agents) : list string := sets_List (by_key m).
Definition descending (m : Agents) : list string := rev (ascending m).

Definition mq0 (tls : bool) : MQ :=
  mkMQ ["10.0.0.10"] 4222 false "admin" "secret" tls
       "/root/.kc/pki/ca.crt" "/root/.kc/pki/nats/kc-server-nats-client.crt"
       "/root/.kc/pki/nats/kc-server-nats-client.key".

Definition cfg0 (tls : bool) (known : Agents) : DeployConfig :=
  mkDeployConfig "/root/.kc/deploy-config.yaml" (mkSSH "root") "default"
    ["10.0.0.10"] known (mq0 tls) (mkOpLog "/var/log/kc-agent" 1048576)
    "/root/kc.tar.gz" false 8081.

(** The options right after flag parsing: only the --agent tokens and
    the --deploy-config path are set. *)
Definition opts0 (toks : list string) : JoinOptions :=
  mkJoinOptions
    (mkDeployConfig "/root/.kc/deploy-config.yaml" (mkSSH "") "" [] ∅
       (mkMQ [] 0 false "" "" false "" "" "") (mkOpLog "" 0) "" false 0)
    toks ∅ [].

Definition start (toks : list string) (d : DeployConfig) : State :=
  mkState (opts0 toks) [] (Some d) ∅.

(** As [calm], except that the activation command fails on [bad]. *)
Definition flaky (bad : string) : Oracle :=
  {| sudo_reply := fun _ _ _ => true;
     ssh_reply := fun _ host cmd =>
       if String.eqb host bad && String.eqb cmd enable_cmd
       then (mkResult 1 "" "Failed to enable unit", None)
       else (mkResult 0 "" "", None);
     send_reply := fun _ _ _ _ _ => None;
     download_reply := fun _ _ _ _ => None;
     stat_reply := fun _ _ => None;
     write_reply := fun _ _ => None;
     uuid_reply := fun _ => "00000000-0000-4000-8000-000000000000";
     range_order := fun _ m => by_key m |}.

(** The state in which the join loop starts: the deploy config [d] is
    loaded and on disk, the candidates are [cand]. *)
Definition ready (d : DeployConfig) (cand : Agents) : State :=
  mkState (mkJoinOptions d [] cand []) [] (Some d) ∅.

Definition two_nodes : Agents := {[ "default" := ["10.0.0.1"; "10.0.0.2"] ]}.

(** What the probe yields on a host where a kc-agent unit is listed:
    [grep -q] finds the line, exits with status 0 and, being quiet,
    prints nothing. *)
Definition probe_hit : Result := mkResult 0 "" "".

(** An environment in which the probe finds kc-agent on every host. *)
Definition occupied : Oracle :=
  {| sudo_reply := fun _ _ _ => true;
     ssh_reply := fun _ _ cmd =>
       if String.eqb cmd probe_cmd then (probe_hit, None)
       else (mkResult 0 "" "", None);
     send_reply := fun _ _ _ _ _ => None;
     download_reply := fun _ _ _ _ => None;
     stat_reply := fun _ _ => None;
     write_reply := fun _ _ => None;
     uuid_reply := fun _ => "00000000-0000-4000-8000-000000000000";
     range_order := fun _ m => by_key m |}.

Definition two_regions : Agents :=
  {[ "us-west-1" := ["1.2.3.4"]; "us-west-2" := ["2.3.4.5"] ]}.

(** The text the stand-in renderer gives for region us-west-1 and the
    settings of [cfg0] with TLS on. *)
Definition golden : string :=
  "agent:Region=us-west-1;AgentID=00000000-0000-4000-8000-000000000000;" +:+
  "StaticServerAddress=http://10.0.0.10:8081;LogLevel=info;" +:+
  "MQServerEndpoints=10.0.0.10:4222;MQExternal=false;MQUser=admin;" +:+
  "MQAuthToken=secret;MQTLS=true;MQCaPath=/etc/kubeclipper-agent/pki/ca.crt;" +:+
  "MQClientCertPath=/etc/kubeclipper-agent/pki/nats/kc-server-nats-client.crt;" +:+
  "MQClientKeyPath=/etc/kubeclipper-agent/pki/nats/kc-server-nats-client.key;" +:+
  "OpLogDir=/var/log/kc-agent;OpLogThreshold=1048576".

(** As [lib], with a parser that accepts every token list and puts each
    token under the default region. *)
Definition lenient : Lib :=
  {| DefaultPkgPath := DefaultPkgPath lib;
     KcAgentService := KcAgentService lib;
     KcAgentConfigTmpl := KcAgentConfigTmpl lib;
     DefaultKcAgentConfigPath := DefaultKcAgentConfigPath lib;
     DefaultCaPath := DefaultCaPath lib;
     DefaultNatsPKIPath := DefaultNatsPKIPath lib;
     filepath_Join := filepath_Join lib;
     filepath_Base := filepath_Base lib;
     filepath_Dir := filepath_Dir lib;
     path_Base := path_Base lib;
     WrapEcho := WrapEcho lib;
     template_Parse := template_Parse lib;
     template_Execute := template_Execute lib;
     BuildAgentRegion := fun toks region0 =>
       inr (fold_left (add_token region0) toks (∅, [])).1 |}.

(** As [calm], except that the deploy config cannot be written. *)
Definition readonly : Oracle :=
  {| sudo_reply := fun _ _ _ => true;
     ssh_reply := fun _ _ _ => (mkResult 0 "" "", None);
     send_reply := fun _ _ _ _ _ => None;
     download_reply := fun _ _ _ _ => None;
     stat_reply := fun _ _ => None;
     write_reply := fun _ _ => Some "permission denied";
     uuid_reply := fun _ => "00000000-0000-4000-8000-000000000000";
     range_order := fun _ m => by_key m |}.

Definition one_known : Agents := {[ "default" := ["10.0.0.2"] ]}.

End Demo.

(** ** Observations on states and traces *)

(** The trace grew by events that all satisfy [Q]. *)
Definition ext (Q : Event -> Prop) (s s' : State) : Prop :=
  exists t, trace s' = trace s ++ t /\ Forall Q t.

(** Footprint of the steps that leave the options and the persisted
    file alone: local storage only gains files and the trace grows by
    [Q]-events. *)
Definition fp (Q : Event -> Prop) (s s' : State) : Prop :=
  jo s' = jo s /\ disk s' = disk s /\ files s ⊆ files s' /\ ext Q s s'.

(** [m] relates every start state to its end state by [R], whatever the
    outcome. *)
Definition stable {A} (R : State -> State -> Prop) (m : M A) : Prop :=
  forall s, R s (m s).2.

(** Hoare triple with a normal and an abnormal postcondition. *)
Definition triple {A} (P : State -> Prop) (m : M A)
    (Q : A -> State -> Prop) (E : State -> Prop) : Prop :=
  forall s, P s ->
    match m s with
    | (Ok a, s') => Q a s'
    | (Err _, s') => E s'
    | (Fatal _, s') => E s'
    end.

(** One agent: provision, then activate and record. *)
Definition joinNode (L : Lib) (O : Oracle) (rn : string * string) : M unit :=
  agentNodeFiles L O rn.1 rn.2 ;;; enableAgent O rn.1 rn.2.

(** The agents of a sequence, one after the other. *)
Fixpoint join_seq (L : Lib) (O : Oracle) (nodes : list (string * string))
    : M unit :=
  match nodes with
  | [] => ret tt
  | rn :: rest => joinNode L O rn ;;; join_seq L O rest
  end.

(** The (region, address) pairs of [m], regions in the order [regions],
    addresses in the order of their bucket. *)
Definition nodes_in_order (m : Agents) (regions : list string)
    : list (string * string) :=
  flat_map (fun r => map (fun a => (r, a)) (default [] (m !! r))) regions.

(** The order in which runJoinAgentNode visits the candidates in state
    [s]. *)
Definition visit_order (O : Oracle) (s : State) : list (string * string) :=
  nodes_in_order (agentRegion (jo s))
                 (range_order O (trace s) (agentRegion (jo s))).

(** Address [ip] is recorded under [region]. *)
Definition recorded (a : Agents) (region ip : string) : Prop :=
  exists l, a !! region = Some l /\ ip ∈ l.

Definition persisted (s : State) (region ip : string) : Prop :=
  exists d, disk s = Some d /\ recorded (AgentRegions d) region ip.

Definition persisted_anywhere (s : State) (ip : string) : Prop :=
  exists d, disk s = Some d /\ Agents_Exists (AgentRegions d) ip = true.

(** Nodes whose provisioning began: the targets of the binary transfer,
    the one SendPackageV2 call that carries a hook. *)
Definition provisioned (t : list Event) : list string :=
  flat_map (fun e => match e with
                     | EvSendPackageV2 _ hosts _ (Some _) => hosts
                     | _ => []
                     end) t.

(** Local paths of the certificate downloads. *)
Definition downloaded (t : list Event) : list string :=
  flat_map (fun e => match e with
                     | EvDownloadSudo _ _ f => [f]
                     | _ => []
                     end) t.

(** Topologies handed to DeployConfig.Write, oldest first. *)
Definition writes (t : list Event) : list DeployConfig :=
  flat_map (fun e => match e with EvWrite d => [d] | _ => [] end) t.

(** [d'] only adds agents to [d]. *)
Definition grows (d d' : DeployConfig) : Prop :=
  ServerIPs d' = ServerIPs d /\ mq d' = mq d /\ opLog d' = opLog d /\
  Pkg d' = Pkg d /\ Debug d' = Debug d /\
  StaticServerPort d' = StaticServerPort d /\
  SSHConfig d' = SSHConfig d /\ DefaultRegion d' = DefaultRegion d /\
  forall region ip, recorded (AgentRegions d) region ip ->
                    recorded (AgentRegions d') region ip.

Definition is_push (e : Event) : Prop :=
  match e with EvSendPackageV2 _ _ _ None => True | _ => False end.
Definition is_fetch (e : Event) : Prop :=
  match e with EvDownloadSudo _ _ _ => True | _ => False end.

(** Events of the preflight for the candidates [ips]: the sudo check
    and read-only probes of candidates. *)
Definition preflight_event (ips : list string) (e : Event) : Prop :=
  match e with
  | EvSudoPreCheck _ _ => True
  | EvSSHCmdWithSudo host cmd => host ∈ ips /\ cmd = probe_cmd
  | _ => False
  end.

(** Events of the trust-material step. *)
Definition certs_event (e : Event) : Prop :=
  match e with
  | EvIsFileExist _ | EvDownloadSudo _ _ _ | EvSendPackageV2 _ _ _ None => True
  | _ => False
  end.

(** Events of agentNodeFiles for [node] after the binary transfer. *)
Definition files_event (node : string) (e : Event) : Prop :=
  match e with
  | EvIsFileExist _ | EvDownloadSudo _ _ _ | EvSendPackageV2 _ _ _ None
  | EvUUID => True
  | EvSSHCmdWithSudo host _ => host = node
  | _ => False
  end.

(** The options after [c.deployConfig.AgentRegions.Add(region, node)]. *)
Definition added (region node : string) (c : JoinOptions) : JoinOptions :=
  set_deployConfig
    (set_AgentRegions
       (Agents_Add region node (AgentRegions (deployConfig c)))
       (deployConfig c)) c.

(** The persisted AgentRegions is the one held in memory. *)
Definition loaded (s : State) : Prop :=
  exists d, disk s = Some d /\
            AgentRegions d = AgentRegions (deployConfig (jo s)).

(** What agentNodeFiles does after the binary transfer. *)
Definition agentNodeFiles_rest (L : Lib) (O : Oracle) (region node : string)
    : M unit :=
  sendCerts L O ;;;
  do agentConfig <- getKcAgentConfigTemplateContent L O region;
  run_cmdList O node
    [WrapEcho L (KcAgentService L) "/usr/lib/systemd/system/kc-agent.service";
     mkdir_cmd;
     WrapEcho L agentConfig "/etc/kubeclipper-agent/kubeclipper-agent.yaml"].

(** The AgentRegions after adding the nodes of [l] in turn. *)
Definition add_all (l : list (string * string)) (a : Agents) : Agents :=
  fold_left (fun acc rn => Agents_Add rn.1 rn.2 acc) l a.

(** The state after a successful Complete: the config [d] loaded from
    the file, the candidates [cand] built from the --agent tokens. *)
Definition completed (s : State) (d : DeployConfig) (cand : Agents) : State :=
  set_jo (mkJoinOptions (set_Config (Config (deployConfig (jo s))) d)
                        (agents (jo s)) cand (sets_List (servers (jo s)))) s.

(** What the [Run] closure does once Complete and ValidateArgs passed. *)
Definition preflight_then_join (L : Lib) (O : Oracle) : M RunExit :=
  do ok <- preCheck O;
  if negb ok then ret ExitPreflight
  else CheckErr (RunJoinFunc L O) ;;; ret ExitJoined.

(** A download fetches a file to the path it has on the first server
    address. *)
Definition from_first_server (srvs : list string) (e : Event) : Prop :=
  match e with
  | EvDownloadSudo host remote local => head srvs = Some host /\ remote = local
  | _ => True
  end.

(** No file was downloaded twice, and every download came from the
    first server address. *)
Definition fetched_once (srvs : list string) (s : State) : Prop :=
  NoDup (downloaded (trace s)) /\ Forall (from_first_server srvs) (trace s).

(** On top of [fetched_once]: the server list is [srvs] and every
    downloaded file is in local storage. *)
Definition cache_ok (srvs : list string) (s : State) : Prop :=
  ServerIPs (deployConfig (jo s)) = srvs /\
  fetched_once srvs s /\
  forall f, f ∈ downloaded (trace s) -> f ∈ files s.

Definition is_write (e : Event) : Prop :=
  match e with EvWrite _ => True | _ => False end.

(** Events other than downloads and writes of the deploy config. *)
Definition routine (e : Event) : Prop :=
  match e with
  | EvDownloadSudo _ _ _ | EvWrite _ => False
  | _ => True
  end.

(** Events of the download loop of sendCerts. *)
Definition fetch_event (e : Event) : Prop :=
  match e with
  | EvIsFileExist _ | EvDownloadSudo _ _ _ => True
  | _ => False
  end.

(** Every Topology handed to Write extends [d0] and all the ones handed
    over before it, and the file holds [d0] or one of them. *)
Definition topology_chain (d0 : DeployConfig) (s : State) : Prop :=
  StronglySorted grows (d0 :: writes (trace s)) /\
  exists d', disk s = Some d' /\ d' ∈ d0 :: writes (trace s).

(** On top of [topology_chain]: the in-memory config extends all of
    them. *)
Definition memory_ahead (d0 : DeployConfig) (s : State) : Prop :=
  topology_chain d0 s /\
  Forall (fun w => grows w (deployConfig (jo s))) (d0 :: writes (trace s)).

(** The rendered configuration as a function of the region, the
    generated identifier, the first server address and port, the debug
    flag, the MQ settings and the operation-log settings. *)
Definition expected_config (L : Lib) (region agentID : string)
    (server0 : option string) (port : Z) (debug : bool) (m : MQ) (ol : OpLog)
    : outcome string :=
  match template_Parse L (KcAgentConfigTmpl L) with
  | Some e => Fatal ("template parse failed: " +:+ e)
  | None =>
      match server0 with
      | None => Fatal "index out of range"
      | Some srv =>
          match template_Execute L (KcAgentConfigTmpl L)
                  (agent_config_data L region agentID srv port debug m ol) with
          | inl e => Fatal ("template execute failed: " +:+ e)
          | inr text => Ok text
          end
      end
  end.

(** The candidates that are checked before the first one that is
    already recorded in [a]. *)
Fixpoint unknown_prefix (a : Agents) (l : list string) : list string :=
  match l with
  | [] => []
  | ip :: rest =>
      if Agents_Exists a ip then [] else ip :: unknown_prefix a rest
  end.

(** Where sendCerts pushes [file]: next to its configured path when the
    certificates are supplied externally, else into the managed
    directory [sub] under the agent's config path. *)
Definition cert_dest (L : Lib) (m : MQ) (sub file : string) : string :=
  if External m then filepath_Dir L file
  else filepath_Join L [DefaultKcAgentConfigPath L; sub].

(** The three pushes of sendCerts for the options [c]. *)
Definition push_events (L : Lib) (c : JoinOptions) : list Event :=
  let m := mq (deployConfig c) in
  let ips := Agents_ListIP (agentRegion c) in
  [EvSendPackageV2 (CA m) ips (cert_dest L m (DefaultCaPath L) (CA m)) None;
   EvSendPackageV2 (ClientCert m) ips
     (cert_dest L m (DefaultNatsPKIPath L) (ClientCert m)) None;
   EvSendPackageV2 (ClientKey m) ips
     (cert_dest L m (DefaultNatsPKIPath L) (ClientKey m)) None].

(** A download, if [e] is one, fetches one of [fs] that is not in the
    local storage [F], from the first of [srvs], to the same path. *)
Definition fetch_of_missing (srvs fs : list string) (F : gset string)
    (e : Event) : Prop :=
  match e with
  | EvDownloadSudo host remote local =>
      head srvs = Some host /\ remote = local /\ local ∈ fs /\ local ∉ F
  | _ => True
  end.

(** The activation command ran and exited with status 0. *)
Definition activation_ok (O : Oracle) (s : State) (node : string) : bool :=
  match ssh_reply O (trace s) node enable_cmd with
  | (res, None) => (ExitCode res =? 0)%Z
  | (_, Some _) => false
  end.

(** The three file-delivery commands of agentNodeFiles. *)
Definition delivery_cmds (L : Lib) (agentConfig : string) : list string :=
  [WrapEcho L (KcAgentService L) "/usr/lib/systemd/system/kc-agent.service";
   mkdir_cmd;
   WrapEcho L agentConfig "/etc/kubeclipper-agent/kubeclipper-agent.yaml"].

(** The fields every rendering passes to the template, and the ones it
    adds for TLS. *)
Definition base_keys : gset string :=
  list_to_set ["Region"; "AgentID"; "StaticServerAddress"; "LogLevel";
               "MQServerEndpoints"; "MQExternal"; "MQUser"; "MQAuthToken";
               "MQTLS"; "OpLogDir"; "OpLogThreshold"].
Definition tls_keys : gset string :=
  list_to_set ["MQCaPath"; "MQClientCertPath"; "MQClientKeyPath"].

(** The trace of [s] starts with [pre]. *)
Definition extends (pre : list Event) (s : State) : Prop :=
  exists t, trace s = pre ++ t.

(** ** The documentation generator of tools/kcctldocs-gen/generators/read_cmd.go

    The generator walks a tree of cobra commands.  A cobra command is
    modelled by what read_cmd.go reads of it; the flags are listed in
    the order in which VisitAll visits them. *)
Module Docs.

Record Flag := mkFlag {
  flagName : string;
  flagShorthand : string;
  flagDefValue : string;
  flagUsage : string }.

#[warnings="-register-all"]
Inductive CobraCommand :=
| Cobra (use long short example : string)
        (nonInherited inherited : list Flag)
        (commands : list CobraCommand).

Definition cobra_Use (c : CobraCommand) : string :=
  match c with Cobra use _ _ _ _ _ _ => use end.
Definition cobra_Long (c : CobraCommand) : string :=
  match c with Cobra _ long _ _ _ _ _ => long end.
Definition cobra_Short (c : CobraCommand) : string :=
  match c with Cobra _ _ short _ _ _ _ => short end.
Definition cobra_Example (c : CobraCommand) : string :=
  match c with Cobra _ _ _ example _ _ _ => example end.
Definition cobra_NonInheritedFlags (c : CobraCommand) : list Flag :=
  match c with Cobra _ _ _ _ fl _ _ => fl end.
Definition cobra_InheritedFlags (c : CobraCommand) : list Flag :=
  match c with Cobra _ _ _ _ _ fl _ => fl end.
Definition cobra_Commands (c : CobraCommand) : list CobraCommand :=
  match c with Cobra _ _ _ _ _ _ cs => cs end.

Fixpoint before_space (s : string) : string :=
  match s with
  | EmptyString => EmptyString
  | String ch rest =>
      if Ascii.eqb ch " "%char then EmptyString
      else String ch (before_space rest)
  end.

(** cobra's Command.Name: the usage line up to its first space. *)
Definition cobra_Name (c : CobraCommand) : string := before_space (cobra_Use c).

Record Option := mkOption {
  optName : string;
  optShorthand : string;
  optDefaultValue : string;
  optUsage : string }.

Record Command := mkCommand {
  Name : string;
  Path : string;
  Description : string;
  Synopsis : string;
  Example_ : string;
  Options : list Option;
  InheritedOptions : list Option;
  Usage : string }.

Record TopLevelCommand := mkTopLevelCommand {
  MainCommand : Command;
  SubCommands : list Command }.

Definition NewOptions (flags : list Flag) : list Option :=
  map (fun flag => mkOption (flagName flag) (flagShorthand flag)
                            (flagDefValue flag) (flagUsage flag)) flags.

Definition NewCommand (c : CobraCommand) (path : string) : Command :=
  mkCommand (cobra_Name c) path (cobra_Long c) (cobra_Short c)
            (cobra_Example c) (NewOptions (cobra_NonInheritedFlags c))
            (NewOptions (cobra_InheritedFlags c)) (cobra_Use c).

Fixpoint NewSubCommands (c : CobraCommand) (path : string) : list Command :=
  match c with
  | Cobra use _ _ _ _ _ commands =>
      NewCommand c (path +:+ before_space use) ::
      flat_map (fun subCommand =>
                  NewSubCommands subCommand
                    ((path +:+ before_space use) +:+ " "))
               commands
  end.

(** [Less] of Commands, TopLevelCommands and Options. *)
Definition Commands_Less (a b : Command) : bool := String.ltb (Path a) (Path b).
Definition TopLevelCommands_Less (a b : TopLevelCommand) : bool :=
  String.ltb (Path (MainCommand a)) (Path (MainCommand b)).
Definition Options_Less (a b : Option) : bool :=
  String.ltb (optName a) (optName b).

(** NewTopLevelCommand, with sort.Sort over Commands as [sort]. *)
Definition NewTopLevelCommand (sort : list Command -> list Command)
    (c : CobraCommand) : TopLevelCommand :=
  mkTopLevelCommand
    (NewCommand c "")
    (sort (flat_map (fun sub => NewSubCommands sub "") (cobra_Commands c))).

(** NewTopLevelCommands, with sort.Sort over TopLevelCommands as
    [sortTop]. *)
Definition NewTopLevelCommands (sort : list Command -> list Command)
    (sortTop : list TopLevelCommand -> list TopLevelCommand)
    (cs : list CobraCommand) : list TopLevelCommand :=
  sortTop (map (NewTopLevelCommand sort) cs).

(** The number of commands in the tree below and including [c]. *)
Fixpoint size (c : CobraCommand) : nat :=
  match c with
  | Cobra _ _ _ _ _ _ commands => S (list_sum (map size commands))
  end.

(** The chains of names from [c] down to each command of its tree,
    parents before children, siblings in their order. *)
Fixpoint chains (c : CobraCommand) : list (list string) :=
  match c with
  | Cobra use _ _ _ _ _ commands =>
      [before_space use] ::
      map (cons (before_space use)) (flat_map chains commands)
  end.

Definition sample : CobraCommand :=
  Cobra "kcctl" "" "" "" [] []
    [Cobra "join [flags]" "" "join kubeclipper agent and server node" ""
       [mkFlag "agent" "" "[]" "join agent node.";
        mkFlag "deploy-config" "" "" "kcctl deploy config path"] [] [];
     Cobra "get (--filename | resource)" "" "" "" [] []
       [Cobra "node" "" "" "" [] [] []]].

End Docs.

(** * Properties *)

(** ** The monad and the footprint relations *)

Lemma bind_Ok {A B} (m : M A) (k : A -> M B) s a s1 :
  m s = (Ok a, s1) -> bind m k s = k a s1.
Proof. intros H. unfold bind. by rewrite H. Qed.

Lemma bind_Err {A B} (m : M A) (k : A -> M B) s e s1 :
  m s = (Err e, s1) -> bind m k s = (Err e, s1).
Proof. intros H. unfold bind. by rewrite H. Qed.

Lemma bind_Fatal {A B} (m : M A) (k : A -> M B) s e s1 :
  m s = (Fatal e, s1) -> bind m k s = (Fatal e, s1).
Proof. intros H. unfold bind. by rewrite H. Qed.

Lemma bind_not_Ok {A B} (m : M A) (k : A -> M B) s :
  is_Ok (m s).1 = false ->
  is_Ok (bind m k s).1 = false /\ (bind m k s).2 = (m s).2.
Proof.
  unfold bind. destruct (m s) as [[a|e|e] s1]; simpl; [done|done..].
Qed.

#[global] Instance ext_preorder Q : PreOrder (ext Q).
Proof.
  split.
  - intros s. exists []. by rewrite app_nil_r.
  - intros s1 s2 s3 (t1 & E1 & F1) (t2 & E2 & F2).
    exists (t1 ++ t2). split.
    + by rewrite E2, E1, app_assoc.
    + by apply Forall_app.
Qed.

#[global] Instance fp_preorder Q : PreOrder (fp Q).
Proof.
  split.
  - intros s. repeat split; [set_solver | reflexivity].
  - intros s1 s2 s3 (J1 & D1 & F1 & E1) (J2 & D2 & F2 & E2).
    repeat split; [congruence | congruence | set_solver | by etrans].
Qed.

Lemma ext_impl (Q Q' : Event -> Prop) s s' :
  (forall e, Q e -> Q' e) -> ext Q s s' -> ext Q' s s'.
Proof.
  intros HQ (t & E & F). exists t. split; [done|].
  eapply Forall_impl; eauto.
Qed.

Lemma fp_impl (Q Q' : Event -> Prop) s s' :
  (forall e, Q e -> Q' e) -> fp Q s s' -> fp Q' s s'.
Proof.
  intros HQ (J & D & F & E). repeat split; try done.
  by eapply ext_impl.
Qed.

Lemma stable_impl {A} (R R' : State -> State -> Prop) (m : M A) :
  (forall s s', R s s' -> R' s s') -> stable R m -> stable R' m.
Proof. intros HR H s. apply HR, H. Qed.

Lemma stable_ret {A} R `{!Reflexive R} (a : A) : stable R (ret a).
Proof. intros s. simpl. reflexivity. Qed.

Lemma stable_fail {A} R `{!Reflexive R} e : stable R (@fail A e).
Proof. intros s. simpl. reflexivity. Qed.

Lemma stable_fatal {A} R `{!Reflexive R} e : stable R (@fatal A e).
Proof. intros s. simpl. reflexivity. Qed.

Lemma stable_get_jo R `{!Reflexive R} : stable R get_jo.
Proof. intros s. simpl. reflexivity. Qed.

Lemma stable_get_trace R `{!Reflexive R} : stable R get_trace.
Proof. intros s. simpl. reflexivity. Qed.

Lemma stable_bind {A B} R `{!Transitive R} (m : M A) (k : A -> M B) :
  stable R m -> (forall a, stable R (k a)) -> stable R (bind m k).
Proof.
  intros Hm Hk s. specialize (Hm s). unfold bind.
  destruct (m s) as [[a|e|e] s1]; simpl in *; [|done..].
  etrans; [exact Hm | apply Hk].
Qed.

Lemma stable_wrap_err {A} R f (m : M A) : stable R m -> stable R (wrap_err f m).
Proof.
  intros Hm s. specialize (Hm s). unfold wrap_err.
  by destruct (m s) as [[a|e|e] s1].
Qed.

Lemma stable_try {A} R (m : M A) : stable R m -> stable R (try m).
Proof.
  intros Hm s. specialize (Hm s). unfold try.
  by destruct (m s) as [[a|e|e] s1].
Qed.

Lemma stable_CheckErr {A} R (m : M A) : stable R m -> stable R (CheckErr m).
Proof.
  intros Hm s. specialize (Hm s). unfold CheckErr.
  by destruct (m s) as [[a|e|e] s1].
Qed.

(** One event appended, nothing else touched. *)
Lemma fp_add_event (Q : Event -> Prop) e s : Q e -> fp Q s (add_event e s).
Proof.
  intros HQ. repeat split; [set_solver|].
  exists [e]. split; [done | by constructor].
Qed.

Lemma fp_add_file (Q : Event -> Prop) f s : fp Q s (add_file f s).
Proof.
  repeat split; [simpl; set_solver|]. exists []. simpl.
  by rewrite app_nil_r.
Qed.

Section Footprints.
Context (L : Lib) (O : Oracle) (Q : Event -> Prop).

Lemma stable_sudo_PreCheck name nodes :
  Q (EvSudoPreCheck name nodes) -> stable (fp Q) (sudo_PreCheck O name nodes).
Proof. intros HQ s. by apply fp_add_event. Qed.

Lemma stable_SSHCmdWithSudo host cmd :
  Q (EvSSHCmdWithSudo host cmd) -> stable (fp Q) (SSHCmdWithSudo O host cmd).
Proof.
  intros HQ s. unfold SSHCmdWithSudo.
  destruct (ssh_reply O (trace s) host cmd) as [r [e|]]; by apply fp_add_event.
Qed.

Lemma stable_SendPackageV2 pkg hosts dst hook :
  Q (EvSendPackageV2 pkg hosts dst hook) ->
  stable (fp Q) (SendPackageV2 O pkg hosts dst hook).
Proof.
  intros HQ s. unfold SendPackageV2.
  destruct (send_reply O (trace s) pkg hosts dst hook); by apply fp_add_event.
Qed.

Lemma stable_DownloadSudo host remote local :
  Q (EvDownloadSudo host remote local) ->
  stable (fp Q) (DownloadSudo O host remote local).
Proof.
  intros HQ s. unfold DownloadSudo.
  destruct (download_reply O (trace s) host remote local); simpl.
  - by apply fp_add_event.
  - etrans; [by apply fp_add_event | apply fp_add_file].
Qed.

Lemma stable_IsFileExist file :
  Q (EvIsFileExist file) -> stable (fp Q) (IsFileExist O file).
Proof.
  intros HQ s. unfold IsFileExist.
  destruct (stat_reply O (trace s) file); by apply fp_add_event.
Qed.

Lemma stable_uuid_New : Q EvUUID -> stable (fp Q) (uuid_New O).
Proof. intros HQ s. by apply fp_add_event. Qed.

End Footprints.

(** Walks through a monadic body, splitting binds and branches. *)
Ltac stable_step :=
  first
    [ apply stable_ret; apply _
    | apply stable_fail; apply _
    | apply stable_fatal; apply _
    | apply stable_get_jo; apply _
    | apply stable_get_trace; apply _
    | apply stable_wrap_err
    | apply stable_try
    | apply stable_CheckErr
    | apply stable_bind; [apply _ | | intros ?]
    | apply stable_sudo_PreCheck
    | apply stable_SSHCmdWithSudo
    | apply stable_SendPackageV2
    | apply stable_DownloadSudo
    | apply stable_IsFileExist
    | apply stable_uuid_New
    | match goal with
      | |- stable _ (match ?x with _ => _ end) => destruct x
      | |- stable _ (let _ := _ in _) => cbv zeta
      end ].
Ltac stable_tac := repeat stable_step.

(** ** Footprints of the steps of join.go *)

Section Steps.
Context (L : Lib) (O : Oracle).

Lemma preCheckKcAgent_fp ips ip :
  ip ∈ ips -> stable (fp (preflight_event ips)) (preCheckKcAgent O ip).
Proof. intros Hin. unfold preCheckKcAgent. stable_tac. by split. Qed.

Lemma preCheck_agents_fp ips l :
  l ⊆ ips -> stable (fp (preflight_event ips)) (preCheck_agents O l).
Proof.
  induction l as [|ip l IH]; intros Hsub; simpl; [stable_tac|].
  apply stable_bind; [apply _ | | intros [|]; simpl].
  - apply preCheckKcAgent_fp. set_solver.
  - apply IH. set_solver.
  - stable_tac.
Qed.

Lemma preCheck_fp s :
  fp (preflight_event (Agents_ListIP (agentRegion (jo s)))) s (preCheck O s).2.
Proof.
  unfold preCheck, bind at 1. simpl.
  set (ips := Agents_ListIP (agentRegion (jo s))).
  assert (stable (fp (preflight_event ips))
    (do ok <- sudo_PreCheck O "sudo" (ips ++ servers (jo s));
     if negb ok then ret false else preCheck_agents O ips)) as H.
  { apply stable_bind; [apply _ | by apply stable_sudo_PreCheck |].
    intros [|]; simpl; [|stable_tac]. by apply preCheck_agents_fp. }
  apply H.
Qed.

Lemma ValidateArgs_same s : (ValidateArgs s).2 = s.
Proof.
  unfold ValidateArgs, bind. simpl.
  destruct (length (agents (jo s)) =? 0)%nat; [done|].
  by destruct (length (ServerIPs (deployConfig (jo s))) =? 0)%nat.
Qed.

Lemma sendCerts_download_fp fs :
  stable (fp certs_event) (sendCerts_download O fs).
Proof. induction fs as [|f fs IH]; simpl; stable_tac; done. Qed.

Lemma sendCerts_fp : stable (fp certs_event) (sendCerts L O).
Proof.
  unfold sendCerts. stable_tac; try done.
Qed.

Lemma getKcAgentConfigTemplateContent_fp region :
  stable (fp (fun e => e = EvUUID)) (getKcAgentConfigTemplateContent L O region).
Proof. unfold getKcAgentConfigTemplateContent. stable_tac. done. Qed.

Lemma run_cmdList_fp node cmds :
  stable (fp (fun e => exists cmd, e = EvSSHCmdWithSudo node cmd))
         (run_cmdList O node cmds).
Proof. induction cmds as [|c cmds IH]; simpl; stable_tac; eauto. Qed.

End Steps.

Section Nodes.
Context (L : Lib) (O : Oracle).

(** A wrapped transfer either fails after its event or hands over to
    the continuation. *)
Lemma send_then {A} pkg hosts dst hook f (k : M A) s :
  let s1 := add_event (EvSendPackageV2 pkg hosts dst hook) s in
  (exists e, bind (wrap_err f (SendPackageV2 O pkg hosts dst hook))
                  (fun _ => k) s = (Err e, s1)) \/
  bind (wrap_err f (SendPackageV2 O pkg hosts dst hook)) (fun _ => k) s = k s1.
Proof.
  cbv zeta. unfold bind, wrap_err, SendPackageV2.
  destruct (send_reply O (trace s) pkg hosts dst hook); simpl; eauto.
Qed.

Lemma certs_files_event node e : certs_event e -> files_event node e.
Proof. destruct e as [| | ? ? ? [hk|] | | | |]; simpl; tauto. Qed.

(** agentNodeFiles starts with the binary transfer to [node] and then
    only touches certificates, the identifier source and [node]. *)
Lemma agentNodeFiles_unfold region node s :
  let pkg := Pkg (deployConfig (jo s)) in
  agentNodeFiles L O region node s =
  bind (wrap_err (fun e => errors_Wrap e "SendPackageV2")
          (SendPackageV2 O pkg [node] (DefaultPkgPath L) (Some (hook_cmd L pkg))))
       (fun _ => agentNodeFiles_rest L O region node) s.
Proof. reflexivity. Qed.

Lemma agentNodeFiles_rest_fp region node :
  stable (fp (files_event node)) (agentNodeFiles_rest L O region node).
Proof.
  apply stable_bind; [apply _ | | intros _].
  - eapply stable_impl; [|apply sendCerts_fp].
    intros ??. apply fp_impl, certs_files_event.
  - apply stable_bind; [apply _ | | intros cfg].
    + eapply stable_impl; [|apply getKcAgentConfigTemplateContent_fp].
      intros ??. apply fp_impl. by intros ? ->.
    + eapply stable_impl; [|apply run_cmdList_fp].
      intros ??. apply fp_impl. by intros ? [? ->].
Qed.

Lemma agentNodeFiles_fp region node s :
  let s' := (agentNodeFiles L O region node s).2 in
  let pkg := Pkg (deployConfig (jo s)) in
  jo s' = jo s /\ disk s' = disk s /\ files s ⊆ files s' /\
  exists t,
    trace s' = trace s ++
      EvSendPackageV2 pkg [node] (DefaultPkgPath L) (Some (hook_cmd L pkg)) :: t /\
    Forall (files_event node) t.
Proof.
  cbv zeta. rewrite agentNodeFiles_unfold. cbv zeta.
  set (pkg := Pkg (deployConfig (jo s))).
  set (ev := EvSendPackageV2 pkg [node] (DefaultPkgPath L) (Some (hook_cmd L pkg))).
  destruct (send_then pkg [node] (DefaultPkgPath L) (Some (hook_cmd L pkg))
              (fun e => errors_Wrap e "SendPackageV2")
              (agentNodeFiles_rest L O region node) s) as [[e ->]| ->].
  - simpl. repeat split; [set_solver|]. exists []. by split.
  - destruct (agentNodeFiles_rest_fp region node (add_event ev s))
      as (J & D & F & t & E & HQ).
    split; [exact J|]. split; [exact D|]. split; [exact F|].
    exists t. split; [|done]. etrans; [exact E|].
    simpl. by rewrite <- app_assoc.
Qed.

(** The three ways enableAgent can end: the activation command failed,
    the write of the deploy config failed, or the node was recorded. *)
Lemma enableAgent_cases region node s :
  let r := enableAgent O region node s in
  let s1 := add_event (EvSSHCmdWithSudo node enable_cmd) s in
  let c' := added region node (jo s) in
  let s2 := add_event (EvWrite (deployConfig c')) (set_jo c' s1) in
  (is_Ok r.1 = false /\ r.2 = s1) \/
  (is_Ok r.1 = false /\ r.2 = s2) \/
  (r.1 = Ok tt /\ r.2 = set_disk (deployConfig c') s2).
Proof.
  cbv zeta. unfold enableAgent, bind, wrap_err, SSHCmdWithSudo, fail, ret.
  destruct (ssh_reply O (trace s) node enable_cmd) as [res [e|]]; simpl;
    [by left|].
  destruct (Result_Error res); simpl; [by left|].
  unfold DeployConfig_Write, added. simpl.
  destruct (write_reply _ _ _); simpl; [right; by left | right; by right].
Qed.

Lemma enableAgent_files region node s :
  files (enableAgent O region node s).2 = files s.
Proof.
  destruct (enableAgent_cases region node s) as [[_ ->]|[[_ ->]|[_ ->]]]; done.
Qed.

(** A successful node is recorded in memory and on disk. *)
Lemma joinNode_Ok rn s s' :
  joinNode L O rn s = (Ok tt, s') ->
  jo s' = added rn.1 rn.2 (jo s) /\ disk s' = Some (deployConfig (jo s')).
Proof.
  unfold joinNode, bind. intros H.
  pose proof (agentNodeFiles_fp rn.1 rn.2 s) as (J & _).
  destruct (agentNodeFiles L O rn.1 rn.2 s) as [[[]|e|e] s1]; [|done..].
  simpl in J.
  destruct (enableAgent_cases rn.1 rn.2 s1) as [[N E]|[[N E]|[N E]]];
    rewrite H in *; simpl in *; [done..|].
  subst s'. simpl. by rewrite J.
Qed.

(** A node that fails leaves the deploy-config file as it was. *)
Lemma joinNode_fail rn s :
  is_Ok (joinNode L O rn s).1 = false ->
  disk (joinNode L O rn s).2 = disk s.
Proof.
  unfold joinNode, bind.
  pose proof (agentNodeFiles_fp rn.1 rn.2 s) as (_ & D & _).
  destruct (agentNodeFiles L O rn.1 rn.2 s) as [[[]|e|e] s1]; simpl in *;
    [|done..].
  destruct (enableAgent_cases rn.1 rn.2 s1) as [[N E]|[[N E]|[N E]]];
    intros H; rewrite E; simpl; [done..|].
  rewrite N in H. done.
Qed.

Lemma bind_assoc {A B C} (m : M A) (k : A -> M B) (h : B -> M C) s :
  bind (bind m k) h s = bind m (fun a => bind (k a) h) s.
Proof. unfold bind. by destruct (m s) as [[a|e|e] s1]. Qed.

Lemma bind_ext {A B} (m : M A) (k k' : A -> M B) s :
  (forall a s1, k a s1 = k' a s1) -> bind m k s = bind m k' s.
Proof. intros H. unfold bind. by destruct (m s) as [[a|e|e] s1]. Qed.

Lemma bind_ret_r {A} (m : M A) s : bind m ret s = m s.
Proof. unfold bind. by destruct (m s) as [[a|e|e] s1]. Qed.

Lemma join_seq_app l1 l2 s :
  join_seq L O (l1 ++ l2) s = bind (join_seq L O l1) (fun _ => join_seq L O l2) s.
Proof.
  revert s. induction l1 as [|rn l1 IH]; intros s; simpl; [done|].
  rewrite bind_assoc. by apply bind_ext.
Qed.

Lemma join_agents_seq region l s :
  join_agents L O region l s = join_seq L O (map (fun a => (region, a)) l) s.
Proof.
  revert s. induction l as [|a l IH]; intros s; simpl; [done|].
  unfold joinNode. simpl. rewrite bind_assoc.
  apply bind_ext. intros [] s1. by apply bind_ext.
Qed.

Lemma join_regions_seq (m : Agents) regions s :
  join_regions L O m regions s = join_seq L O (nodes_in_order m regions) s.
Proof.
  revert s. induction regions as [|r rs IH]; intros s; simpl; [done|].
  rewrite join_seq_app. unfold bind. rewrite join_agents_seq.
  destruct (join_seq L O _ s) as [[[]|e|e] s1]; [apply IH|done..].
Qed.

(** runJoinAgentNode processes the candidates in [visit_order]. *)
Lemma runJoinAgentNode_seq s :
  runJoinAgentNode L O s = join_seq L O (visit_order O s) s.
Proof. unfold runJoinAgentNode, bind. simpl. apply join_regions_seq. Qed.

Lemma join_seq_Ok l s s' :
  loaded s ->
  join_seq L O l s = (Ok tt, s') ->
  loaded s' /\
  AgentRegions (deployConfig (jo s')) =
    add_all l (AgentRegions (deployConfig (jo s))).
Proof.
  revert s. induction l as [|rn l IH]; intros s Hs; simpl.
  - intros [= <-]. done.
  - unfold bind at 1.
    destruct (joinNode L O rn s) as [[[]|e|e] s1] eqn:E; [|done..].
    apply joinNode_Ok in E as [J D]. intros H.
    apply IH in H as [H1 H2].
    + split; [done|]. rewrite H2, J. done.
    + exists (deployConfig (jo s1)). done.
Qed.

End Nodes.

(** ** Membership in AgentRegions *)

Lemma Agents_Exists_spec (a : Agents) ip :
  Agents_Exists a ip = true <-> exists region, recorded a region ip.
Proof.
  unfold Agents_Exists, recorded. rewrite existsb_exists. split.
  - intros ([r l] & Hin & Hd). apply list_elem_of_In, elem_of_map_to_list in Hin.
    apply bool_decide_eq_true in Hd. eauto.
  - intros (r & l & Hl & Hin). exists (r, l). split.
    + by apply list_elem_of_In, elem_of_map_to_list.
    + by apply bool_decide_eq_true.
Qed.

Lemma elem_of_Agents_ListIP (a : Agents) ip :
  ip ∈ Agents_ListIP a <-> exists region, recorded a region ip.
Proof.
  unfold Agents_ListIP, recorded.
  rewrite list_elem_of_In, in_concat. split.
  - intros (l & Hl & Hin). apply list_elem_of_In, list_elem_of_fmap in Hl.
    destruct Hl as ([r l'] & -> & Hrl). apply elem_of_map_to_list in Hrl.
    exists r, l'. split; [done|]. by apply list_elem_of_In.
  - intros (r & l & Hl & Hin). exists l. split; [|by apply list_elem_of_In].
    apply list_elem_of_In, list_elem_of_fmap. exists (r, l). split; [done|].
    by apply elem_of_map_to_list.
Qed.

Lemma recorded_Add (a : Agents) region ip region' ip' :
  recorded (Agents_Add region ip a) region' ip' <->
  recorded a region' ip' \/ (region' = region /\ ip' = ip).
Proof.
  unfold recorded, Agents_Add. destruct (decide (region = region')) as [<-|Hne].
  - rewrite lookup_insert_eq. split.
    + intros (l & [= <-] & Hin). apply elem_of_app in Hin as [Hin|Hin].
      * left. destruct (a !! region) as [l0|]; simpl in *; [eauto|].
        by apply elem_of_nil in Hin.
      * right. by apply list_elem_of_singleton in Hin.
    + intros [(l & Hl & Hin)|[_ ->]]; eexists; (split; [done|]).
      * rewrite Hl. simpl. apply elem_of_app. by left.
      * apply elem_of_app. right. by apply list_elem_of_singleton.
  - rewrite lookup_insert_ne by done. split; [by left|].
    intros [H|[-> _]]; done.
Qed.

Lemma recorded_add_all l (a : Agents) region ip :
  recorded (add_all l a) region ip <-> recorded a region ip \/ (region, ip) ∈ l.
Proof.
  revert a. induction l as [|[r n] l IH]; intros a; simpl.
  - split; [by left|]. intros [H|H]; [done|]. by apply elem_of_nil in H.
  - rewrite IH, recorded_Add, elem_of_cons. simpl. split.
    + intros [[H|[-> ->]]|H]; auto.
    + intros [H|[[= -> ->]|H]]; auto.
Qed.

(** ** Partial-run durability *)

Section Durability.
Context (L : Lib) (O : Oracle).

Lemma persisted_anywhere_spec s ip :
  persisted_anywhere s ip <-> exists region, persisted s region ip.
Proof.
  unfold persisted_anywhere, persisted. split.
  - intros (d & Hd & H). apply Agents_Exists_spec in H as [r H]. eauto.
  - intros (r & d & Hd & H). exists d. split; [done|].
    apply Agents_Exists_spec. eauto.
Qed.

(** After a successful sequence the file holds exactly the old agents
    and the nodes of the sequence. *)
Lemma join_seq_persisted l s s' region ip :
  loaded s ->
  join_seq L O l s = (Ok tt, s') ->
  persisted s' region ip <-> persisted s region ip \/ (region, ip) ∈ l.
Proof.
  intros Hs H. pose proof Hs as (d & Hd & Hd').
  destruct (join_seq_Ok L O l s s' Hs H) as [(d1 & Hd1 & Hd1') Hmem].
  unfold persisted. rewrite Hd, Hd1. split.
  - intros (? & [= <-] & Hr). rewrite Hd1', Hmem, <- Hd' in Hr.
    apply recorded_add_all in Hr as [Hr|Hr]; eauto.
  - intros Hr. exists d1. split; [done|].
    rewrite Hd1', Hmem, <- Hd'. apply recorded_add_all.
    destruct Hr as [(? & [= <-] & Hr)|Hr]; auto.
Qed.

(** C1: if the nodes before B, among them A, were joined and B then
    fails at any stage, the run ends with an error, the persisted
    topology holds A under its region and does not hold B, and A was
    already on disk when the processing of B began. *)
Theorem partial_run_durability s done rA A rB B rest s1 :
  loaded s ->
  visit_order O s = done ++ (rB, B) :: rest ->
  (rA, A) ∈ done ->
  join_seq L O done s = (Ok tt, s1) ->
  is_Ok (joinNode L O (rB, B) s1).1 = false ->
  ~ persisted_anywhere s B ->
  B ∉ done.*2 ->
  is_Ok (runJoinAgentNode L O s).1 = false /\
  persisted (runJoinAgentNode L O s).2 rA A /\
  ~ persisted_anywhere (runJoinAgentNode L O s).2 B /\
  persisted s1 rA A.
Proof.
  intros Hs Hord HA Hdone HB HnB Hfresh.
  rewrite runJoinAgentNode_seq, Hord, join_seq_app.
  rewrite (bind_Ok _ _ _ _ _ Hdone). simpl.
  destruct (bind_not_Ok (joinNode L O (rB, B))
              (fun _ => join_seq L O rest) s1 HB) as [Hr Hst].
  rewrite Hr, Hst.
  pose proof (joinNode_fail L O (rB, B) s1 HB) as Hdisk.
  assert (forall region ip,
    persisted (joinNode L O (rB, B) s1).2 region ip <-> persisted s1 region ip)
    as Hsame.
  { intros region ip. unfold persisted. by rewrite Hdisk. }
  assert (persisted s1 rA A) as HA1.
  { apply (join_seq_persisted done s s1); auto. }
  repeat split; [by apply Hsame | | done].
  rewrite persisted_anywhere_spec. intros (region & Hp).
  apply Hsame, (join_seq_persisted done s s1) in Hp; [|done..].
  destruct Hp as [Hp|Hp].
  - apply HnB, persisted_anywhere_spec. eauto.
  - apply Hfresh, list_elem_of_fmap. by exists (region, B).
Qed.

End Durability.

Lemma partial_run_durability_witness :
  let s := Demo.ready (Demo.cfg0 true ∅) Demo.two_nodes in
  let r := runJoinAgentNode Demo.lib (Demo.flaky "10.0.0.2") s in
  is_Ok r.1 = false /\
  persisted r.2 "default" "10.0.0.1" /\
  ~ persisted_anywhere r.2 "10.0.0.2" /\
  persisted
    (join_seq Demo.lib (Demo.flaky "10.0.0.2") [("default", "10.0.0.1")] s).2
    "default" "10.0.0.1".
Proof.
  cbv zeta.
  apply (partial_run_durability Demo.lib (Demo.flaky "10.0.0.2")
           (Demo.ready (Demo.cfg0 true ∅) Demo.two_nodes)
           [("default", "10.0.0.1")] "default" "10.0.0.1"
           "default" "10.0.0.2" []).
  - by exists (Demo.cfg0 true ∅).
  - vm_compute. reflexivity.
  - apply list_elem_of_here.
  - vm_compute. reflexivity.
  - vm_compute. reflexivity.
  - intros (d & Hd & H). injection Hd as <-. vm_compute in H. discriminate.
  - intros H. apply list_elem_of_singleton in H. discriminate.
Defined.

(** ** The server path *)

Lemma checkServerNodes_noop nodes s : checkServerNodes nodes s = (Ok tt, s).
Proof. induction nodes as [|n nodes IH]; simpl; [done|]. exact IH. Qed.

Lemma runJoinServerNode_noop s : runJoinServerNode s = (Ok tt, s).
Proof. unfold runJoinServerNode, bind. simpl. apply checkServerNodes_noop. Qed.

Lemma agent_failed_not_server e e' : agent_failed e <> server_failed e'.
Proof. unfold agent_failed, server_failed. intros H. vm_compute in H. discriminate. Qed.

(** C10: the server-node path does nothing: runJoinServerNode and the
    three server helpers return nil and leave the state (trace,
    topology, files) untouched, so RunJoinNode is the agent path alone
    and never reports "join server node failed". *)
Theorem server_join_noop (L : Lib) (O : Oracle) (s : State) :
  runJoinServerNode s = (Ok tt, s) /\
  (forall node, checkServerNode node s = (Ok tt, s)) /\
  serverNodeFiles s = (Ok tt, s) /\
  enableServerService s = (Ok tt, s) /\
  RunJoinNode L O s = wrap_err agent_failed (runJoinAgentNode L O) s /\
  (forall e, (RunJoinNode L O s).1 <> Err (server_failed e)).
Proof.
  pose proof (runJoinServerNode_noop s) as Hsrv.
  assert (RunJoinNode L O s = wrap_err agent_failed (runJoinAgentNode L O) s)
    as Hrun.
  { unfold RunJoinNode, bind, wrap_err at 1. by rewrite Hsrv. }
  split; [exact Hsrv|]. do 3 (split; [done|]). split; [exact Hrun|].
  intros e. rewrite Hrun. unfold wrap_err.
  destruct (runJoinAgentNode L O s) as [[[]|e'|e'] s']; simpl;
    [done | | done].
  intros H. apply (agent_failed_not_server e' e).
  exact (f_equal (fun r : outcome unit =>
                    match r with Err x => x | _ => "" end) H).
Qed.

(** ** Validation *)

(** C7: when the loaded deploy config knows no server address, the
    invocation ends with a fatal validation error, the trace is
    unchanged (no transport call, no other step) and the file is
    untouched; with a non-empty, well-formed agent list the error is the
    missing-server message. *)
Theorem no_server_is_validation_error (L : Lib) (O : Oracle) (s : State)
    (d : DeployConfig) :
  disk s = Some d ->
  ServerIPs d = [] ->
  (exists e, (Run L O s).1 = Fatal e) /\
  trace (Run L O s).2 = trace s /\
  disk (Run L O s).2 = disk s /\
  (forall a, agents (jo s) <> [] ->
             BuildAgentRegion L (agents (jo s)) (DefaultRegion d) = inr a ->
             (Run L O s).1 = Fatal no_server_msg).
Proof.
  intros Hd Hsrv.
  unfold Run, Complete, DeployConfig_Complete, ValidateArgs, CheckErr, bind.
  rewrite Hd. simpl.
  destruct (BuildAgentRegion L (agents (jo s)) (DefaultRegion d)) as [e|a];
    simpl.
  { repeat split; eauto. intros ??. done. }
  destruct (agents (jo s)) as [|tok toks]; simpl.
  { repeat split; eauto. intros ??. done. }
  rewrite Hsrv. simpl. repeat split; eauto.
Qed.

Lemma no_server_is_validation_error_witness :
  let d := mkDeployConfig "/root/.kc/deploy-config.yaml" (mkSSH "root")
             "default" [] ∅ (Demo.mq0 true) (mkOpLog "/var/log" 1) "" false 8081 in
  let s := Demo.start ["10.0.0.1"] d in
  (Run Demo.lib (Demo.calm Demo.by_key) s).1 = Fatal no_server_msg /\
  trace (Run Demo.lib (Demo.calm Demo.by_key) s).2 = [].
Proof.
  cbv zeta.
  pose proof (no_server_is_validation_error Demo.lib (Demo.calm Demo.by_key)
                (Demo.start ["10.0.0.1"]
                   (mkDeployConfig "/root/.kc/deploy-config.yaml" (mkSSH "root")
                      "default" [] ∅ (Demo.mq0 true) (mkOpLog "/var/log" 1)
                      "" false 8081)) _ eq_refl eq_refl)
    as (_ & Ht & _ & He).
  split; [|exact Ht].
  eapply He; [done | vm_compute; reflexivity].
Defined.

(** ** The liveness probe *)

(** preCheckKcAgent rejects an address exactly when it is already
    recorded, the probe could not be run, or the probe exits with
    status 0 and prints something. *)
Lemma preCheckKcAgent_result (O : Oracle) ip s :
  (preCheckKcAgent O ip s).1 =
  Ok (negb (Agents_Exists (AgentRegions (deployConfig (jo s))) ip) &&
      match ssh_reply O (trace s) ip probe_cmd with
      | (_, Some _) => false
      | (res, None) =>
          negb ((ExitCode res =? 0)%Z && negb (String.eqb (Stdout res) ""))
      end).
Proof.
  unfold preCheckKcAgent, bind, try, SSHCmdWithSudo. simpl.
  destruct (Agents_Exists _ ip); simpl; [done|].
  destruct (ssh_reply O (trace s) ip probe_cmd) as [res [e|]]; simpl; [done|].
  by destruct ((ExitCode res =? 0)%Z && negb (String.eqb (Stdout res) "")).
Qed.

(** C3, at the failing input: the probe finds kc-agent on 10.0.0.1
    (exit status 0, empty output as [grep -q] gives), and yet
    preCheckKcAgent and the whole preflight pass and the invocation
    goes on to join the node. *)
Theorem probe_hit_passes_preflight :
  let s := Demo.ready (Demo.cfg0 true ∅) {[ "default" := ["10.0.0.1"] ]} in
  ssh_reply Demo.occupied (trace s) "10.0.0.1" probe_cmd
    = (Demo.probe_hit, None) /\
  (preCheckKcAgent Demo.occupied "10.0.0.1" s).1 = Ok true /\
  (preCheck Demo.occupied s).1 = Ok true /\
  (Run Demo.lib Demo.occupied
       (Demo.start ["10.0.0.1"] (Demo.cfg0 true ∅))).1 = Ok ExitJoined.
Proof. vm_compute. done. Qed.

(** ** Preflight *)

Section Preflight.
Context (L : Lib) (O : Oracle).

(** An invocation either dies in Complete or ValidateArgs, before any
    interaction, or reaches the preflight with the loaded config. *)
Lemma Run_cases s :
  (is_Ok (Run L O s).1 = false /\ trace (Run L O s).2 = trace s /\
   disk (Run L O s).2 = disk s /\ files (Run L O s).2 = files s) \/
  (exists d cand,
     disk s = Some d /\ agents (jo s) <> [] /\ ServerIPs d <> [] /\
     BuildAgentRegion L (agents (jo s)) (DefaultRegion d) = inr cand /\
     Run L O s = preflight_then_join L O (completed s d cand)).
Proof.
  unfold Run, Complete, DeployConfig_Complete, ValidateArgs, CheckErr, bind.
  destruct (disk s) as [d|] eqn:Hd; simpl; [|by left].
  destruct (BuildAgentRegion L (agents (jo s)) (DefaultRegion d)) as [e|cand]
    eqn:Hb; simpl; [by left|].
  destruct (agents (jo s)) as [|tok toks] eqn:Ha; simpl; [by left|].
  destruct (ServerIPs d) as [|srv srvs] eqn:Hs; simpl; [by left|].
  right. exists d, cand. rewrite Hs. repeat split; try done.
  unfold preflight_then_join, completed, bind. by rewrite Ha.
Qed.

Lemma Run_completed s d cand :
  disk s = Some d -> agents (jo s) <> [] -> ServerIPs d <> [] ->
  BuildAgentRegion L (agents (jo s)) (DefaultRegion d) = inr cand ->
  Run L O s = preflight_then_join L O (completed s d cand).
Proof.
  intros Hd Ha Hs Hb.
  unfold Run, Complete, DeployConfig_Complete, ValidateArgs, CheckErr, bind.
  rewrite Hd. simpl. rewrite Hb. simpl.
  destruct (agents (jo s)) as [|tok toks] eqn:Ea; [done|]. simpl.
  destruct (ServerIPs d) as [|srv srvs] eqn:Es; [done|]. simpl.
  unfold preflight_then_join, completed, bind. by rewrite Ea.
Qed.

Lemma preCheckKcAgent_jo ip s : jo (preCheckKcAgent O ip s).2 = jo s.
Proof.
  by destruct (preCheckKcAgent_fp O [ip] ip (list_elem_of_here _ _) s)
    as (J & _).
Qed.

Lemma preCheckKcAgent_known ip s :
  Agents_Exists (AgentRegions (deployConfig (jo s))) ip = true ->
  (preCheckKcAgent O ip s).1 = Ok false.
Proof. intros H. rewrite preCheckKcAgent_result, H. done. Qed.

(** The candidate loop stops with [false] if any candidate is already
    recorded. *)
Lemma preCheck_agents_known l ip s :
  ip ∈ l ->
  Agents_Exists (AgentRegions (deployConfig (jo s))) ip = true ->
  (preCheck_agents O l s).1 = Ok false.
Proof.
  revert s. induction l as [|a l IH]; intros s Hin Hex.
  { by apply elem_of_nil in Hin. }
  simpl. unfold bind.
  pose proof (preCheckKcAgent_result O a s) as Hr.
  pose proof (preCheckKcAgent_jo a s) as Hj.
  destruct (preCheckKcAgent O a s) as [[b|e|e] s1]; simpl in *; [|done..].
  destruct b; simpl; [|done].
  apply IH; [|by rewrite Hj].
  apply elem_of_cons in Hin as [->|Hin]; [|done].
  rewrite Hex in Hr. simpl in Hr. done.
Qed.

Lemma preCheck_known ip s :
  ip ∈ Agents_ListIP (agentRegion (jo s)) ->
  Agents_Exists (AgentRegions (deployConfig (jo s))) ip = true ->
  (preCheck O s).1 = Ok false.
Proof.
  intros Hin Hex. unfold preCheck, bind. simpl.
  destruct (sudo_reply O (trace s) _ _); simpl; [|done].
  by apply (preCheck_agents_known _ ip).
Qed.

(** A preflight that passes found no candidate in AgentRegions. *)
Lemma preCheck_passed_fresh ip s :
  (preCheck O s).1 = Ok true ->
  ip ∈ Agents_ListIP (agentRegion (jo s)) ->
  Agents_Exists (AgentRegions (deployConfig (jo s))) ip = false.
Proof.
  intros Hok Hin.
  destruct (Agents_Exists (AgentRegions (deployConfig (jo s))) ip) eqn:E;
    [|done].
  rewrite (preCheck_known ip s Hin E) in Hok. done.
Qed.

(** After Complete the in-memory AgentRegions is the persisted one. *)
Lemma completed_loaded s d cand : disk s = Some d -> loaded (completed s d cand).
Proof. intros Hd. by exists d. Qed.

Lemma preflight_event_mono ips ips' e :
  ips ⊆ ips' -> preflight_event ips e -> preflight_event ips' e.
Proof. intros Hsub. destruct e; simpl; try done. intros [??]. split; auto. Qed.

(** The candidate loop probes only candidates that come before the
    first recorded one. *)
Lemma preCheck_agents_prefix l s :
  fp (preflight_event
        (unknown_prefix (AgentRegions (deployConfig (jo s))) l))
     s (preCheck_agents O l s).2.
Proof.
  revert s. induction l as [|a l IH]; intros s; simpl; [reflexivity|].
  destruct (Agents_Exists (AgentRegions (deployConfig (jo s))) a) eqn:Ex.
  - unfold bind, preCheckKcAgent at 1, bind. simpl. rewrite Ex. simpl.
    reflexivity.
  - set (pre := unknown_prefix (AgentRegions (deployConfig (jo s))) l).
    pose proof (preCheckKcAgent_fp O (a :: pre) a (list_elem_of_here _ _) s)
      as H1.
    unfold bind.
    destruct (preCheckKcAgent O a s) as [[b|e|e] s1]; simpl in H1; [|done..].
    destruct b; simpl; [|done].
    etrans; [exact H1|]. pose proof H1 as (J & _).
    eapply fp_impl; [|apply IH]. rewrite J. fold pre.
    intros e. apply preflight_event_mono. set_solver.
Qed.

Lemma preCheck_prefix s :
  fp (preflight_event
        (unknown_prefix (AgentRegions (deployConfig (jo s)))
                        (Agents_ListIP (agentRegion (jo s)))))
     s (preCheck O s).2.
Proof.
  unfold preCheck, bind at 1. simpl. unfold bind, sudo_PreCheck.
  set (s1 := add_event _ s).
  assert (fp (preflight_event
                (unknown_prefix (AgentRegions (deployConfig (jo s)))
                                (Agents_ListIP (agentRegion (jo s))))) s s1)
    as H1 by (by apply fp_add_event).
  destruct (sudo_reply O (trace s) _ _); simpl; [|done].
  etrans; [exact H1|]. apply (preCheck_agents_prefix _ s1).
Qed.

(** C2, as amended: when a candidate is already recorded in
    AgentRegions, the invocation returns from the preflight, the file
    is unchanged, and the only calls made are the sudo check and the
    read-only probes of the candidates checked before the first
    recorded one. *)
Theorem preflight_rejects_known_address s d cand ip :
  disk s = Some d ->
  agents (jo s) <> [] ->
  ServerIPs d <> [] ->
  BuildAgentRegion L (agents (jo s)) (DefaultRegion d) = inr cand ->
  ip ∈ Agents_ListIP cand ->
  Agents_Exists (AgentRegions d) ip = true ->
  (Run L O s).1 = Ok ExitPreflight /\
  disk (Run L O s).2 = disk s /\
  ext (preflight_event (unknown_prefix (AgentRegions d) (Agents_ListIP cand)))
      s (Run L O s).2.
Proof.
  intros Hd Ha Hs Hb Hin Hex.
  rewrite (Run_completed s d cand) by done.
  set (s1 := completed s d cand).
  pose proof (preCheck_known ip s1 Hin Hex) as Hr.
  pose proof (preCheck_prefix s1) as (_ & D & _ & E).
  unfold preflight_then_join, bind.
  destruct (preCheck O s1) as [[b|e|e] s2]; simpl in *; [|done..].
  injection Hr as ->. simpl. done.
Qed.

End Preflight.

Lemma preflight_rejects_known_address_witness :
  let s := Demo.start ["10.0.0.1,10.0.0.2"] (Demo.cfg0 true Demo.one_known) in
  let r := Run Demo.lib (Demo.calm Demo.by_key) s in
  r.1 = Ok ExitPreflight /\ disk r.2 = disk s /\
  ext (preflight_event ["10.0.0.1"]) s r.2.
Proof.
  cbv zeta.
  apply (preflight_rejects_known_address Demo.lib (Demo.calm Demo.by_key)
           (Demo.start ["10.0.0.1,10.0.0.2"] (Demo.cfg0 true Demo.one_known))
           (Demo.cfg0 true Demo.one_known) Demo.two_nodes "10.0.0.2").
  - reflexivity.
  - discriminate.
  - discriminate.
  - vm_compute. reflexivity.
  - vm_compute. apply list_elem_of_further, list_elem_of_here.
  - vm_compute. reflexivity.
Defined.

(** C2 as stated fails: 10.0.0.2 is already recorded, the invocation
    returns from the preflight, and yet the probe of 10.0.0.1, checked
    before it, went over the transport. *)
Lemma preflight_known_address_probes_earlier :
  let s := Demo.start ["10.0.0.1,10.0.0.2"] (Demo.cfg0 true Demo.one_known) in
  let r := Run Demo.lib (Demo.calm Demo.by_key) s in
  Agents_Exists (AgentRegions (Demo.cfg0 true Demo.one_known)) "10.0.0.2" = true /\
  "10.0.0.2" ∈ Agents_ListIP (agentRegion (jo r.2)) /\
  r.1 = Ok ExitPreflight /\
  trace s = [] /\
  EvSSHCmdWithSudo "10.0.0.1" probe_cmd ∈ trace r.2 /\
  is_transport (EvSSHCmdWithSudo "10.0.0.1" probe_cmd) = true.
Proof.
  cbv zeta. split; [by vm_compute|]. split.
  { vm_compute. apply list_elem_of_further, list_elem_of_here. }
  split; [by vm_compute|]. split; [done|]. split; [|done].
  vm_compute. apply list_elem_of_further, list_elem_of_here.
Qed.

(** ** Hoare rules *)

Lemma triple_ret {A} (P : State -> Prop) (a : A) (Q : A -> State -> Prop) E :
  (forall s, P s -> Q a s) -> triple P (ret a) Q E.
Proof. intros H s Hs. simpl. auto. Qed.

Lemma triple_bind {A B} P (m : M A) (k : A -> M B) Q R E :
  triple P m Q E -> (forall a, triple (Q a) (k a) R E) ->
  triple P (bind m k) R E.
Proof.
  intros Hm Hk s Hs. specialize (Hm s Hs). unfold bind.
  destruct (m s) as [[a|e|e] s1]; [|done..]. by apply Hk.
Qed.

Lemma triple_wrap_err {A} P f (m : M A) Q E :
  triple P m Q E -> triple P (wrap_err f m) Q E.
Proof.
  intros Hm s Hs. specialize (Hm s Hs). unfold wrap_err.
  by destruct (m s) as [[a|e|e] s1].
Qed.

Lemma triple_CheckErr {A} P (m : M A) Q E :
  triple P m Q E -> triple P (CheckErr m) Q E.
Proof.
  intros Hm s Hs. specialize (Hm s Hs). unfold CheckErr.
  by destruct (m s) as [[a|e|e] s1].
Qed.

Lemma triple_weaken {A} (P P' : State -> Prop) (m : M A)
    (Q Q' : A -> State -> Prop) (E E' : State -> Prop) :
  (forall s, P' s -> P s) -> (forall a s, Q a s -> Q' a s) ->
  (forall s, E s -> E' s) ->
  triple P m Q E -> triple P' m Q' E'.
Proof.
  intros HP HQ HE Hm s Hs. specialize (Hm s (HP s Hs)).
  destruct (m s) as [[a|e|e] s1]; auto.
Qed.

Lemma triple_pre {A} (P P' : State -> Prop) (m : M A) Q E :
  (forall s, P' s -> P s) -> triple P m Q E -> triple P' m Q E.
Proof. intros HP Hm s Hs. apply Hm. auto. Qed.

Lemma triple_get_jo (P : State -> Prop) E :
  triple P get_jo (fun c s => P s /\ c = jo s) E.
Proof. intros s Hs. simpl. done. Qed.

(** A step whose end state satisfies [R] on every path. *)
Lemma triple_always {A} (P R : State -> Prop) (m : M A) :
  (forall s, P s -> R (m s).2) -> triple P m (fun _ => R) R.
Proof.
  intros H s Hs. specialize (H s Hs). by destruct (m s) as [[a|e|e] s1].
Qed.

Lemma triple_keeps {A} (I E : State -> Prop) (m : M A) :
  (forall s, I s -> E s) -> (forall s, I s -> I (m s).2) ->
  triple I m (fun _ => I) E.
Proof.
  intros HE H s Hs. specialize (H s Hs).
  destruct (m s) as [[a|e|e] s1]; simpl in *; auto.
Qed.

(** ** Invariants of a whole invocation

    An invariant [I] that survives routine steps, the download loop and
    enableAgent survives the whole run; [E] is what is left of it when
    a step fails. *)

Section Invariant.
Context (L : Lib) (O : Oracle) (I E : State -> Prop).
Hypothesis I_E : forall s, I s -> E s.
Hypothesis I_routine : forall s s', fp routine s s' -> I s -> I s'.
Hypothesis I_download :
  forall fs, triple I (sendCerts_download O fs) (fun _ => I) E.
Hypothesis I_enableAgent :
  forall region node, triple I (enableAgent O region node) (fun _ => I) E.

Lemma triple_routine {A} (Q : Event -> Prop) (m : M A) :
  (forall e, Q e -> routine e) -> stable (fp Q) m ->
  triple I m (fun _ => I) E.
Proof.
  intros HQ Hm s Hs.
  assert (I (m s).2) as H.
  { eapply I_routine; [|exact Hs]. eapply fp_impl; [exact HQ | apply Hm]. }
  destruct (m s) as [[a|e|e] s1]; simpl in *; auto.
Qed.

Lemma triple_sendCerts : triple I (sendCerts L O) (fun _ => I) E.
Proof.
  unfold sendCerts.
  eapply triple_bind; [apply triple_get_jo|]. intros c.
  apply (triple_pre I); [by intros s [H _]|].
  eapply triple_bind; [apply I_download|]. intros ?.
  apply (triple_routine is_push).
  { intros []; simpl; tauto. }
  destruct (TLS (mq (deployConfig c))); stable_tac; try done.
Qed.

Lemma triple_agentNodeFiles region node :
  triple I (agentNodeFiles L O region node) (fun _ => I) E.
Proof.
  unfold agentNodeFiles.
  eapply triple_bind; [apply triple_get_jo|]. intros c.
  apply (triple_pre I); [by intros s [H _]|].
  eapply triple_bind.
  { apply triple_wrap_err.
    apply (triple_routine routine); [done|].
    by apply stable_SendPackageV2. }
  intros ?. eapply triple_bind; [apply triple_sendCerts|]. intros ?.
  eapply triple_bind.
  { apply (triple_routine (fun e => e = EvUUID));
      [by intros ? -> | apply getKcAgentConfigTemplateContent_fp]. }
  intros cfg.
  apply (triple_routine (fun e => exists cmd, e = EvSSHCmdWithSudo node cmd));
    [by intros ? [? ->] | apply run_cmdList_fp].
Qed.

Lemma triple_join_agents region l :
  triple I (join_agents L O region l) (fun _ => I) E.
Proof.
  induction l as [|a l IH]; simpl; [by apply triple_ret|].
  eapply triple_bind; [apply triple_agentNodeFiles|]. intros ?.
  eapply triple_bind; [apply I_enableAgent|]. intros ?. exact IH.
Qed.

Lemma triple_join_regions (m : Agents) regions :
  triple I (join_regions L O m regions) (fun _ => I) E.
Proof.
  induction regions as [|r rs IH]; simpl; [by apply triple_ret|].
  eapply triple_bind; [apply triple_join_agents|]. intros ?. exact IH.
Qed.

Lemma triple_RunJoinFunc : triple I (RunJoinFunc L O) (fun _ => I) E.
Proof.
  unfold RunJoinFunc, RunJoinNode.
  eapply triple_bind.
  { apply triple_wrap_err.
    apply (triple_routine (fun _ => False)); [done|].
    intros s. rewrite runJoinServerNode_noop. reflexivity. }
  intros ?. apply triple_wrap_err. unfold runJoinAgentNode.
  intros s Hs. unfold bind. simpl. by apply triple_join_regions.
Qed.

Lemma triple_preflight_then_join :
  triple I (preflight_then_join L O) (fun _ => I) E.
Proof.
  unfold preflight_then_join.
  eapply triple_bind.
  { intros s Hs. pose proof (preCheck_fp O s) as Hfp.
    assert (I (preCheck O s).2) as H.
    { eapply I_routine; [|exact Hs]. eapply fp_impl; [|exact Hfp].
      intros []; simpl; tauto. }
    destruct (preCheck O s) as [[b|e|e] s1]; simpl in *; [exact H|auto..]. }
  intros [|]; simpl; [|by apply triple_ret].
  eapply triple_bind; [apply triple_CheckErr, triple_RunJoinFunc|].
  intros ?. by apply triple_ret.
Qed.

(** The invariant holds at the end of [Run] if it holds for the state
    in which the invocation starts and for the state after Complete. *)
Lemma Run_invariant s :
  E s ->
  (forall d cand, disk s = Some d -> I (completed s d cand)) ->
  (forall s', trace s' = trace s -> disk s' = disk s -> files s' = files s ->
              E s -> E s') ->
  E (Run L O s).2.
Proof.
  intros HE HI Hframe.
  destruct (Run_cases L O s) as [(_ & Ht & Hd & Hf)|(d & cand & Hd & _ & _ & _ & ->)].
  - by apply Hframe.
  - pose proof (triple_preflight_then_join _ (HI d cand Hd)) as H.
    destruct (preflight_then_join L O (completed s d cand)) as [[a|e|e] s1];
      simpl; auto.
Qed.

End Invariant.

(** ** Certificate caching *)

Lemma downloaded_app t1 t2 : downloaded (t1 ++ t2) = downloaded t1 ++ downloaded t2.
Proof. unfold downloaded. by rewrite flat_map_app. Qed.

Lemma downloaded_quiet t : Forall (fun e => ~ is_fetch e) t -> downloaded t = [].
Proof.
  induction 1 as [|e t He _ IH]; [done|]. simpl. rewrite IH.
  destruct e; simpl in *; tauto.
Qed.

Lemma quiet_from_first_server srvs e : ~ is_fetch e -> from_first_server srvs e.
Proof. destruct e; simpl; tauto. Qed.

Lemma routine_not_fetch e : routine e -> ~ is_fetch e.
Proof. destruct e; simpl; tauto. Qed.

(** Steps without downloads keep the cache invariant. *)
Lemma cache_ok_quiet srvs s s' :
  ServerIPs (deployConfig (jo s')) = ServerIPs (deployConfig (jo s)) ->
  files s ⊆ files s' ->
  ext (fun e => ~ is_fetch e) s s' ->
  cache_ok srvs s -> cache_ok srvs s'.
Proof.
  intros HS HF (t & E & Ht) (Hsrv & [Hnd Hall] & Hin).
  pose proof (downloaded_quiet t Ht) as Hq.
  unfold cache_ok, fetched_once. rewrite E, downloaded_app, Hq, app_nil_r.
  split; [by rewrite HS|]. split; [split; [done|]|].
  - apply Forall_app. split; [done|].
    eapply Forall_impl; [exact Ht|]. apply quiet_from_first_server.
  - intros f Hf. apply HF. by apply Hin.
Qed.

Lemma cache_ok_fp (Q : Event -> Prop) srvs s s' :
  (forall e, Q e -> ~ is_fetch e) ->
  fp Q s s' -> cache_ok srvs s -> cache_ok srvs s'.
Proof.
  intros HQ (J & _ & F & E). apply cache_ok_quiet; [by rewrite J | done |].
  by eapply ext_impl.
Qed.

Lemma cache_ok_fetched srvs s : cache_ok srvs s -> fetched_once srvs s.
Proof. by intros (_ & H & _). Qed.

Section Cache.
Context (O : Oracle) (srvs : list string).

Lemma triple_IsFileExist f :
  triple (cache_ok srvs) (IsFileExist O f)
         (fun b s => cache_ok srvs s /\ (b = false -> f ∉ files s))
         (fetched_once srvs).
Proof.
  intros s Hs. unfold IsFileExist.
  assert (cache_ok srvs (add_event (EvIsFileExist f) s)) as H1.
  { eapply (cache_ok_fp (fun e => e = EvIsFileExist f));
      [intros ? ->; simpl; tauto| |done].
    by apply fp_add_event. }
  destruct (stat_reply O (trace s) f); [by apply cache_ok_fetched|].
  split; [done|]. simpl. intros Hb. by apply bool_decide_eq_false in Hb.
Qed.

Lemma triple_DownloadSudo host f :
  head srvs = Some host ->
  triple (fun s => cache_ok srvs s /\ f ∉ files s) (DownloadSudo O host f f)
         (fun _ => cache_ok srvs) (fetched_once srvs).
Proof.
  intros Hh s ((Hsrv & [Hnd Hall] & Hin) & Hf). unfold DownloadSudo.
  assert (fetched_once srvs (add_event (EvDownloadSudo host f f) s)) as H1.
  { unfold fetched_once. simpl. rewrite downloaded_app. simpl. split.
    - apply NoDup_app. repeat split; [done | | apply NoDup_singleton].
      intros x Hx ->%list_elem_of_singleton. by apply Hf, Hin.
    - apply Forall_app. split; [done|]. by repeat constructor. }
  destruct (download_reply O (trace s) host f f); [done|].
  repeat split; try done; try apply H1.
  simpl. rewrite downloaded_app. simpl. intros x Hx.
  apply elem_of_app in Hx as [Hx|Hx].
  - apply elem_of_union_r. by apply Hin.
  - apply elem_of_union_l. apply list_elem_of_singleton in Hx as ->.
    by apply elem_of_singleton.
Qed.

(** The download loop fetches only files missing from local storage,
    so it keeps the cache invariant. *)
Lemma triple_sendCerts_download fs :
  triple (cache_ok srvs) (sendCerts_download O fs)
         (fun _ => cache_ok srvs) (fetched_once srvs).
Proof.
  induction fs as [|f fs IH]; simpl; [by apply triple_ret|].
  eapply triple_bind; [apply triple_wrap_err, triple_IsFileExist|].
  intros b. eapply triple_bind; [|intros ?; exact IH].
  destruct b; simpl.
  - apply triple_ret. by intros s [H _].
  - intros s [Hs Hf]. unfold bind at 1. simpl.
    pose proof Hs as (Hsrv & _).
    destruct (ServerIPs (deployConfig (jo s))) as [|server0 rest] eqn:E.
    + simpl. by apply cache_ok_fetched.
    + apply (triple_wrap_err _ _ _ _ _ (triple_DownloadSudo server0 f
               ltac:(by rewrite <- Hsrv))).
      split; [done|]. by apply Hf.
Qed.

Lemma triple_enableAgent_cache region node :
  triple (cache_ok srvs) (enableAgent O region node)
         (fun _ => cache_ok srvs) (fetched_once srvs).
Proof.
  intros s Hs.
  assert (cache_ok srvs (enableAgent O region node s).2) as H.
  { destruct (enableAgent_cases O region node s) as [[_ ->]|[[_ ->]|[_ ->]]].
    - eapply (cache_ok_fp (fun e => ~ is_fetch e)); [tauto| |exact Hs].
      apply fp_add_event. simpl. tauto.
    - eapply cache_ok_quiet; [| | |exact Hs]; [done | done |].
      eexists [_; _]. simpl. split; [by rewrite <- app_assoc|].
      repeat constructor; simpl; tauto.
    - eapply cache_ok_quiet; [| | |exact Hs]; [done | done |].
      eexists [_; _]. simpl. split; [by rewrite <- app_assoc|].
      repeat constructor; simpl; tauto. }
  destruct (enableAgent O region node s) as [[a|e|e] s1]; simpl in *;
    auto using cache_ok_fetched.
Qed.

End Cache.

(** C4: in an invocation that starts with an empty history, no file is
    downloaded twice, however many agents are joined, and every
    download comes from the first server address of the loaded config. *)
Theorem certs_downloaded_at_most_once (L : Lib) (O : Oracle) (s : State)
    (d : DeployConfig) :
  trace s = [] ->
  disk s = Some d ->
  fetched_once (ServerIPs d) (Run L O s).2.
Proof.
  intros Ht Hd.
  apply (Run_invariant L O (cache_ok (ServerIPs d)) (fetched_once (ServerIPs d))).
  - apply cache_ok_fetched.
  - intros s1 s2 Hfp. eapply cache_ok_fp; [|exact Hfp]. apply routine_not_fetch.
  - apply triple_sendCerts_download.
  - apply triple_enableAgent_cache.
  - unfold fetched_once. rewrite Ht. split; constructor.
  - intros d' cand Hd'. rewrite Hd in Hd'. injection Hd' as <-.
    unfold cache_ok, fetched_once. simpl. rewrite Ht. simpl.
    repeat split; try constructor. intros f Hf. by apply elem_of_nil in Hf.
  - intros s' Ht' _ _. unfold fetched_once. by rewrite Ht'.
Qed.

Lemma certs_downloaded_at_most_once_witness :
  let s := Demo.start ["10.0.0.1,10.0.0.2,10.0.0.3"] (Demo.cfg0 true ∅) in
  let r := Run Demo.lib (Demo.calm Demo.by_key) s in
  fetched_once ["10.0.0.10"] r.2 /\
  r.1 = Ok ExitJoined /\
  provisioned (trace r.2) = ["10.0.0.1"; "10.0.0.2"; "10.0.0.3"] /\
  downloaded (trace r.2) =
    ["/root/.kc/pki/ca.crt"; "/root/.kc/pki/nats/kc-server-nats-client.crt";
     "/root/.kc/pki/nats/kc-server-nats-client.key"].
Proof.
  cbv zeta. split.
  - apply (certs_downloaded_at_most_once Demo.lib (Demo.calm Demo.by_key)
             (Demo.start ["10.0.0.1,10.0.0.2,10.0.0.3"] (Demo.cfg0 true ∅))
             (Demo.cfg0 true ∅)); reflexivity.
  - vm_compute. done.
Defined.

(** ** Trust material and the TLS flag *)

Lemma sendCerts_download_fetch_fp (O : Oracle) fs :
  stable (fp fetch_event) (sendCerts_download O fs).
Proof. induction fs as [|f fs IH]; simpl; stable_tac; done. Qed.

Lemma bind_ret_tt (m : M unit) s : bind m (fun _ => ret tt) s = m s.
Proof. unfold bind. by destruct (m s) as [[[]|e|e] s1]. Qed.

(** C5, as amended: with MQ TLS disabled sendCerts is its download loop
    alone, so it pushes no file to any node; the loop itself does not
    look at the TLS flag. *)
Theorem sendCerts_without_tls (L : Lib) (O : Oracle) (s : State) :
  TLS (mq (deployConfig (jo s))) = false ->
  sendCerts L O s =
    sendCerts_download O [CA (mq (deployConfig (jo s)));
                          ClientCert (mq (deployConfig (jo s)));
                          ClientKey (mq (deployConfig (jo s)))] s /\
  ext (fun e => ~ is_push e) s (sendCerts L O s).2.
Proof.
  intros Htls.
  assert (sendCerts L O s =
          sendCerts_download O [CA (mq (deployConfig (jo s)));
                                ClientCert (mq (deployConfig (jo s)));
                                ClientKey (mq (deployConfig (jo s)))] s) as Heq.
  { unfold sendCerts, bind at 1. simpl. rewrite Htls. apply bind_ret_tt. }
  split; [exact Heq|]. rewrite Heq.
  destruct (sendCerts_download_fetch_fp O
              [CA (mq (deployConfig (jo s)));
               ClientCert (mq (deployConfig (jo s)));
               ClientKey (mq (deployConfig (jo s)))] s) as (_ & _ & _ & H).
  eapply ext_impl; [|exact H]. intros []; simpl; tauto.
Qed.

Lemma sendCerts_without_tls_witness :
  let s := Demo.ready (Demo.cfg0 false ∅) Demo.two_nodes in
  ext (fun e => ~ is_push e) s
      (sendCerts Demo.lib (Demo.calm Demo.by_key) s).2.
Proof.
  cbv zeta.
  apply (sendCerts_without_tls Demo.lib (Demo.calm Demo.by_key)
           (Demo.ready (Demo.cfg0 false ∅) Demo.two_nodes)).
  reflexivity.
Defined.

(** C5 as stated fails: with MQ TLS disabled and an empty local
    storage, sendCerts downloads the three files from the server. *)
Lemma sendCerts_fetches_without_tls :
  let s := Demo.ready (Demo.cfg0 false ∅) Demo.two_nodes in
  TLS (mq (deployConfig (jo s))) = false /\
  trace s = [] /\
  EvDownloadSudo "10.0.0.10" "/root/.kc/pki/ca.crt" "/root/.kc/pki/ca.crt"
    ∈ trace (sendCerts Demo.lib (Demo.calm Demo.by_key) s).2 /\
  downloaded (trace (sendCerts Demo.lib (Demo.calm Demo.by_key) s).2) =
    ["/root/.kc/pki/ca.crt"; "/root/.kc/pki/nats/kc-server-nats-client.crt";
     "/root/.kc/pki/nats/kc-server-nats-client.key"].
Proof.
  cbv zeta. split; [done|]. split; [done|]. split; [|by vm_compute].
  vm_compute. apply list_elem_of_further, list_elem_of_here.
Qed.

(** ** Processing order *)

Lemma provisioned_app t1 t2 :
  provisioned (t1 ++ t2) = provisioned t1 ++ provisioned t2.
Proof. unfold provisioned. by rewrite flat_map_app. Qed.

Lemma provisioned_files_event node t :
  Forall (files_event node) t -> provisioned t = [].
Proof.
  induction 1 as [|e t He _ IH]; [done|]. simpl. rewrite IH.
  destruct e as [| | ? ? ? [hk|] | | | |]; simpl in *; tauto.
Qed.

Section Order.
Context (L : Lib) (O : Oracle).

(** Whatever its outcome, a node adds exactly itself to the provisioned
    sequence. *)
Lemma joinNode_provisioned rn s :
  exists t, trace (joinNode L O rn s).2 = trace s ++ t /\
            provisioned t = [rn.2].
Proof.
  unfold joinNode, bind.
  destruct (agentNodeFiles_fp L O rn.1 rn.2 s) as (_ & _ & _ & t & E & Ht).
  apply provisioned_files_event in Ht.
  destruct (agentNodeFiles L O rn.1 rn.2 s) as [[[]|e|e] s1]; simpl in E.
  - destruct (enableAgent_cases O rn.1 rn.2 s1) as [[_ ->]|[[_ ->]|[_ ->]]];
      simpl; rewrite E, <- !app_assoc; eexists; (split; [reflexivity|]);
      simpl; rewrite provisioned_app, Ht; done.
  - exists (EvSendPackageV2 (Pkg (deployConfig (jo s))) [rn.2] (DefaultPkgPath L)
              (Some (hook_cmd L (Pkg (deployConfig (jo s))))) :: t).
    split; [done|]. simpl. by rewrite Ht.
  - exists (EvSendPackageV2 (Pkg (deployConfig (jo s))) [rn.2] (DefaultPkgPath L)
              (Some (hook_cmd L (Pkg (deployConfig (jo s))))) :: t).
    split; [done|]. simpl. by rewrite Ht.
Qed.

Lemma join_seq_provisioned l s :
  exists t, trace (join_seq L O l s).2 = trace s ++ t /\
            provisioned t `prefix_of` l.*2 /\
            (is_Ok (join_seq L O l s).1 = true -> provisioned t = l.*2).
Proof.
  revert s. induction l as [|rn l IH]; intros s; simpl.
  { exists []. by rewrite app_nil_r. }
  unfold bind.
  destruct (joinNode_provisioned rn s) as (t1 & E1 & P1).
  destruct (joinNode L O rn s) as [[[]|e|e] s1]; simpl in E1.
  - destruct (IH s1) as (t2 & E2 & P2 & P3).
    exists (t1 ++ t2). rewrite E2, E1, app_assoc, provisioned_app, P1.
    split; [done|]. split.
    + by apply prefix_cons.
    + intros Hok. simpl. f_equal. by apply P3.
  - exists t1. rewrite P1. repeat split; [done | | done].
    apply prefix_cons, prefix_nil.
  - exists t1. rewrite P1. repeat split; [done | | done].
    apply prefix_cons, prefix_nil.
Qed.

(** C6, as amended: runJoinAgentNode provisions the candidates region
    by region in the order in which Go's range visits the map, and
    inside a region in the order of its bucket; a run that fails stops
    after a prefix of that sequence. *)
Theorem provisioning_follows_range_order (s : State) :
  exists t, trace (runJoinAgentNode L O s).2 = trace s ++ t /\
            provisioned t `prefix_of` (visit_order O s).*2 /\
            (is_Ok (runJoinAgentNode L O s).1 = true ->
             provisioned t = (visit_order O s).*2).
Proof. rewrite runJoinAgentNode_seq. apply join_seq_provisioned. Qed.

(** Under Go's guarantee every region is visited once. *)
Lemma visit_order_Permutation s :
  range_ok O ->
  visit_order O s ≡ₚ
  nodes_in_order (agentRegion (jo s)) (map_to_list (agentRegion (jo s))).*1.
Proof.
  intros Hok. unfold visit_order, nodes_in_order.
  apply Permutation_flat_map, Hok.
Qed.

End Order.

Lemma descending_range_ok : range_ok (Demo.calm Demo.descending).
Proof.
  intros h m. simpl. unfold Demo.descending, Demo.ascending, sets_List.
  rewrite <- Permutation_rev, merge_sort_Permutation.
  apply NoDup_Permutation.
  - apply NoDup_remove_dups.
  - apply NoDup_fst_map_to_list.
  - intros x. apply elem_of_remove_dups.
Qed.

(** C6 as stated fails: Go may visit the regions in descending order,
    and then us-west-2 is provisioned before us-west-1; another run
    over the same candidates may visit them in ascending order. *)
Lemma regions_not_in_sorted_order :
  let s := Demo.ready (Demo.cfg0 true ∅) Demo.two_regions in
  range_ok (Demo.calm Demo.descending) /\
  provisioned (trace (runJoinAgentNode Demo.lib
                        (Demo.calm Demo.descending) s).2)
    = ["2.3.4.5"; "1.2.3.4"] /\
  (nodes_in_order Demo.two_regions
     (sets_List (map_to_list Demo.two_regions).*1)).*2
    = ["1.2.3.4"; "2.3.4.5"] /\
  provisioned (trace (runJoinAgentNode Demo.lib
                        (Demo.calm Demo.ascending) s).2)
    = ["1.2.3.4"; "2.3.4.5"].
Proof.
  cbv zeta. split; [apply descending_range_ok|]. by vm_compute.
Qed.

Lemma ascending_range_ok : range_ok (Demo.calm Demo.ascending).
Proof.
  intros h m. simpl. unfold Demo.ascending, sets_List.
  rewrite merge_sort_Permutation.
  apply NoDup_Permutation.
  - apply NoDup_remove_dups.
  - apply NoDup_fst_map_to_list.
  - intros x. apply elem_of_remove_dups.
Qed.

(** ** The persisted topology only grows *)

#[global] Instance grows_preorder : PreOrder grows.
Proof.
  split.
  - intros d. unfold grows. naive_solver.
  - intros d1 d2 d3 H12 H23. unfold grows in *.
    destruct H12 as (?&?&?&?&?&?&?&?&H12), H23 as (?&?&?&?&?&?&?&?&H23).
    repeat split; try congruence. auto.
Qed.

Lemma grows_added region node c :
  grows (deployConfig c) (deployConfig (added region node c)).
Proof.
  unfold grows, added. simpl. repeat split; try done.
  intros r ip H. apply recorded_Add. by left.
Qed.

Lemma grows_set_Config path d : grows d (set_Config path d).
Proof. unfold grows. simpl. naive_solver. Qed.

Lemma writes_app t1 t2 : writes (t1 ++ t2) = writes t1 ++ writes t2.
Proof. unfold writes. by rewrite flat_map_app. Qed.

Lemma writes_quiet t : Forall (fun e => ~ is_write e) t -> writes t = [].
Proof.
  induction 1 as [|e t He _ IH]; [done|]. simpl. rewrite IH.
  destruct e; simpl in *; tauto.
Qed.

(** Steps that neither write nor touch the options keep the chain. *)
Lemma memory_ahead_quiet d0 s s' :
  jo s' = jo s -> disk s' = disk s ->
  ext (fun e => ~ is_write e) s s' ->
  memory_ahead d0 s -> memory_ahead d0 s'.
Proof.
  intros HJ HD (t & E & Ht). unfold memory_ahead, topology_chain.
  rewrite E, writes_app, (writes_quiet t Ht), app_nil_r, HJ, HD. done.
Qed.

Lemma memory_ahead_fp (Q : Event -> Prop) d0 s s' :
  (forall e, Q e -> ~ is_write e) ->
  fp Q s s' -> memory_ahead d0 s -> memory_ahead d0 s'.
Proof.
  intros HQ (J & D & _ & E). apply memory_ahead_quiet; [done..|].
  by eapply ext_impl.
Qed.

(** Recording one more config that extends the in-memory one. *)
Lemma memory_ahead_write d0 (ws : list DeployConfig) dc dc' :
  StronglySorted grows (d0 :: ws) ->
  Forall (fun w => grows w dc) (d0 :: ws) ->
  grows dc dc' ->
  StronglySorted grows (d0 :: ws ++ [dc']) /\
  Forall (fun w => grows w dc') (d0 :: ws ++ [dc']).
Proof.
  intros Hs Hf Hg.
  assert (Forall (fun w => grows w dc') (d0 :: ws)) as Hf'.
  { eapply Forall_impl; [exact Hf|]. intros w Hw. simpl in *.
    etrans; [exact Hw | exact Hg]. }
  split.
  - change (StronglySorted grows ((d0 :: ws) ++ [dc'])).
    apply StronglySorted_app_2; [|done|repeat constructor].
    intros x1 x2 H1 ->%list_elem_of_singleton.
    by eapply Forall_forall in Hf'.
  - change (Forall (fun w => grows w dc') ((d0 :: ws) ++ [dc'])).
    apply Forall_app. split; [done|]. by repeat constructor.
Qed.

Lemma enableAgent_memory_ahead (O : Oracle) d0 region node s :
  memory_ahead d0 s -> memory_ahead d0 (enableAgent O region node s).2.
Proof.
  intros Hs.
  destruct (enableAgent_cases O region node s) as [[_ ->]|[[_ ->]|[_ ->]]].
  - eapply (memory_ahead_fp (fun e => ~ is_write e)); [tauto| |exact Hs].
    apply fp_add_event. simpl. tauto.
  - destruct Hs as [[Hss (d' & Hd & Hin)] Hf].
    destruct (memory_ahead_write d0 (writes (trace s)) (deployConfig (jo s))
                (deployConfig (added region node (jo s))) Hss Hf
                (grows_added region node (jo s))) as [H1 H2].
    unfold memory_ahead, topology_chain. simpl.
    rewrite !writes_app. simpl. rewrite app_nil_r.
    repeat split; [done| |done].
    exists d'. split; [done|].
    apply elem_of_cons in Hin as [->|Hin]; [apply list_elem_of_here|].
    apply list_elem_of_further, elem_of_app. by left.
  - destruct Hs as [[Hss (d' & Hd & Hin)] Hf].
    destruct (memory_ahead_write d0 (writes (trace s)) (deployConfig (jo s))
                (deployConfig (added region node (jo s))) Hss Hf
                (grows_added region node (jo s))) as [H1 H2].
    unfold memory_ahead, topology_chain. simpl.
    rewrite !writes_app. simpl. rewrite app_nil_r.
    repeat split; [done| |done].
    eexists. split; [done|].
    apply list_elem_of_further, elem_of_app. right. apply list_elem_of_here.
Qed.

(** C8: in an invocation that starts with an empty history and the
    Topology [d] on disk, every Topology handed to Write extends [d]
    and every one written before it: server addresses and all other
    fields are the same and no recorded agent is missing; the file
    always holds [d] or one of them. *)
Theorem topology_only_grows (L : Lib) (O : Oracle) (s : State)
    (d : DeployConfig) :
  trace s = [] ->
  disk s = Some d ->
  topology_chain d (Run L O s).2 /\
  exists d', disk (Run L O s).2 = Some d' /\ grows d d'.
Proof.
  intros Ht Hd.
  assert (topology_chain d (Run L O s).2) as H.
  { apply (Run_invariant L O (memory_ahead d) (topology_chain d)).
    - by intros ? [H _].
    - intros s1 s2 Hfp. eapply memory_ahead_fp; [|exact Hfp].
      intros []; simpl; tauto.
    - intros fs. apply triple_keeps; [by intros ? [H _]|].
      intros s1 Hs1. eapply memory_ahead_fp;
        [|apply sendCerts_download_fetch_fp|exact Hs1].
      intros []; simpl; tauto.
    - intros region node. apply triple_keeps; [by intros ? [H _]|].
      intros s1. apply enableAgent_memory_ahead.
    - unfold topology_chain. rewrite Ht, Hd. simpl. split.
      + repeat constructor.
      + exists d. split; [done|]. apply list_elem_of_here.
    - intros d' cand Hd'. rewrite Hd in Hd'. injection Hd' as <-.
      unfold memory_ahead, topology_chain. simpl. rewrite Ht, Hd. simpl.
      repeat split; try (repeat constructor; fail).
      + exists d. split; [done|]. apply list_elem_of_here.
      + constructor; [apply grows_set_Config|constructor].
    - intros s' Ht' Hd' _. unfold topology_chain. by rewrite Ht', Hd'. }
  split; [exact H|].
  destruct H as [Hss (d' & Hd' & Hin)]. exists d'. split; [done|].
  apply elem_of_cons in Hin as [->|Hin]; [reflexivity|].
  apply StronglySorted_cons in Hss as [Hall _].
  by eapply Forall_forall in Hall.
Qed.

Lemma topology_only_grows_witness :
  let s := Demo.start ["10.0.0.1,10.0.0.3"] (Demo.cfg0 true Demo.one_known) in
  let r := Run Demo.lib (Demo.flaky "10.0.0.3") s in
  (topology_chain (Demo.cfg0 true Demo.one_known) r.2 /\
   exists d', disk r.2 = Some d' /\ grows (Demo.cfg0 true Demo.one_known) d') /\
  length (writes (trace r.2)) = 1%nat /\
  persisted r.2 "default" "10.0.0.2" /\ persisted r.2 "default" "10.0.0.1".
Proof.
  cbv zeta. split.
  - apply (topology_only_grows Demo.lib (Demo.flaky "10.0.0.3")
             (Demo.start ["10.0.0.1,10.0.0.3"] (Demo.cfg0 true Demo.one_known))
             (Demo.cfg0 true Demo.one_known)); reflexivity.
  - split; [by vm_compute|].
    split; eexists; (split; [by vm_compute|]); eexists;
      (split; [by vm_compute|]).
    + apply list_elem_of_here.
    + apply list_elem_of_further, list_elem_of_here.
Defined.

(** ** Configuration rendering *)

(** The rendered text depends on the state only through the listed
    fields of the deploy config and the identifier that is generated. *)
Lemma getKcAgentConfigTemplateContent_expected (L : Lib) (O : Oracle) region s :
  (getKcAgentConfigTemplateContent L O region s).1 =
  expected_config L region (uuid_reply O (trace s))
    (head (ServerIPs (deployConfig (jo s))))
    (StaticServerPort (deployConfig (jo s))) (Debug (deployConfig (jo s)))
    (mq (deployConfig (jo s))) (opLog (deployConfig (jo s))).
Proof.
  unfold getKcAgentConfigTemplateContent, expected_config.
  destruct (template_Parse L (KcAgentConfigTmpl L)); [done|].
  unfold bind. simpl.
  destruct (ServerIPs (deployConfig (jo s))) as [|srv rest]; simpl; [done|].
  by destruct (template_Execute L _ _).
Qed.

(** C9: two renderings for the same region agree whenever the
    generated identifier, the first server address, the port, the debug
    flag, the MQ settings and the operation-log settings agree,
    whatever else differs between the two states. *)
Theorem agent_config_deterministic (L : Lib) (O1 O2 : Oracle) region s1 s2 :
  uuid_reply O1 (trace s1) = uuid_reply O2 (trace s2) ->
  head (ServerIPs (deployConfig (jo s1))) =
    head (ServerIPs (deployConfig (jo s2))) ->
  StaticServerPort (deployConfig (jo s1)) =
    StaticServerPort (deployConfig (jo s2)) ->
  Debug (deployConfig (jo s1)) = Debug (deployConfig (jo s2)) ->
  mq (deployConfig (jo s1)) = mq (deployConfig (jo s2)) ->
  opLog (deployConfig (jo s1)) = opLog (deployConfig (jo s2)) ->
  (getKcAgentConfigTemplateContent L O1 region s1).1 =
  (getKcAgentConfigTemplateContent L O2 region s2).1.
Proof.
  intros Hid Hsrv Hport Hdbg Hmq Hol.
  rewrite !getKcAgentConfigTemplateContent_expected.
  by rewrite Hid, Hsrv, Hport, Hdbg, Hmq, Hol.
Qed.

Lemma agent_config_deterministic_witness :
  let s1 := Demo.ready (Demo.cfg0 true ∅) Demo.two_nodes in
  let s2 := (preCheck (Demo.flaky "10.0.0.3")
               (Demo.ready (Demo.cfg0 true Demo.one_known) Demo.two_regions)).2 in
  (getKcAgentConfigTemplateContent Demo.lib (Demo.calm Demo.by_key)
     "us-west-1" s1).1 =
  (getKcAgentConfigTemplateContent Demo.lib (Demo.flaky "10.0.0.3")
     "us-west-1" s2).1 /\
  (getKcAgentConfigTemplateContent Demo.lib (Demo.calm Demo.by_key)
     "us-west-1" s1).1 = Ok Demo.golden.
Proof.
  cbv zeta. split; [|by vm_compute].
  apply agent_config_deterministic; by vm_compute.
Defined.

(** * Further properties of join.go *)

(** ** Complete *)

Lemma sets_List_sorted l : StronglySorted String.le (sets_List l).
Proof. unfold sets_List. apply StronglySorted_merge_sort; apply _. Qed.

Lemma sets_List_NoDup l : NoDup (sets_List l).
Proof.
  unfold sets_List. rewrite merge_sort_Permutation. apply NoDup_remove_dups.
Qed.

Lemma elem_of_sets_List l x : x ∈ sets_List l <-> x ∈ l.
Proof.
  unfold sets_List. rewrite merge_sort_Permutation. apply elem_of_remove_dups.
Qed.

Lemma sets_List_idemp l : sets_List (sets_List l) = sets_List l.
Proof.
  apply (StronglySorted_unique String.le); try apply sets_List_sorted.
  apply NoDup_Permutation; try apply sets_List_NoDup.
  intros x. apply elem_of_sets_List.
Qed.

(** The three ways Complete can end. *)
Lemma Complete_cases (L : Lib) s :
  match disk s with
  | None => Complete L s = (Err "load deploy config failed", s)
  | Some d =>
      match BuildAgentRegion L (agents (jo s)) (DefaultRegion d) with
      | inl e => (Complete L s).1 = Fatal e /\ trace (Complete L s).2 = trace s /\
                 disk (Complete L s).2 = disk s /\
                 files (Complete L s).2 = files s
      | inr cand => Complete L s = (Ok tt, completed s d cand)
      end
  end.
Proof.
  unfold Complete, DeployConfig_Complete, CheckErr, bind.
  destruct (disk s) as [d|] eqn:Hd; simpl; [|done].
  by destruct (BuildAgentRegion L (agents (jo s)) (DefaultRegion d)).
Qed.

(** X1: a Complete that succeeds has loaded the file's config under the
    path of the flag, stored the parsed candidates, left the agent
    tokens alone and replaced c.servers by its distinct elements in
    ascending order; it touches neither trace, file nor local storage. *)
Theorem Complete_success_state (L : Lib) (s s' : State) :
  Complete L s = (Ok tt, s') ->
  (exists d cand,
     disk s = Some d /\
     BuildAgentRegion L (agents (jo s)) (DefaultRegion d) = inr cand /\
     agentRegion (jo s') = cand /\
     deployConfig (jo s') = set_Config (Config (deployConfig (jo s))) d) /\
  agents (jo s') = agents (jo s) /\
  StronglySorted String.le (servers (jo s')) /\
  NoDup (servers (jo s')) /\
  (forall x, x ∈ servers (jo s') <-> x ∈ servers (jo s)) /\
  trace s' = trace s /\ disk s' = disk s /\ files s' = files s.
Proof.
  intros H. pose proof (Complete_cases L s) as Hc.
  destruct (disk s) as [d|] eqn:Hd; [|by rewrite H in Hc].
  destruct (BuildAgentRegion L (agents (jo s)) (DefaultRegion d)) as [e|cand]
    eqn:Hb.
  { destruct Hc as [Hc _]. by rewrite H in Hc. }
  rewrite H in Hc. injection Hc as ->. simpl.
  split; [by exists d, cand|]. split; [done|].
  split; [apply sets_List_sorted|]. split; [apply sets_List_NoDup|].
  split; [apply elem_of_sets_List|]. by rewrite Hd.
Qed.

Lemma Complete_success_state_witness :
  let s := mkState (mkJoinOptions (deployConfig (Demo.opts0 []))
                      ["10.0.0.1"] ∅ ["b"; "a"; "b"]) [] (Some (Demo.cfg0 true ∅)) ∅ in
  servers (jo (Complete Demo.lib s).2) = ["a"; "b"] /\
  StronglySorted String.le (servers (jo (Complete Demo.lib s).2)).
Proof.
  cbv zeta. split; [by vm_compute|].
  refine (proj1 (proj2 (proj2 (Complete_success_state Demo.lib
    (mkState (mkJoinOptions (deployConfig (Demo.opts0 []))
                ["10.0.0.1"] ∅ ["b"; "a"; "b"]) [] (Some (Demo.cfg0 true ∅)) ∅)
    _ _)))).
  by vm_compute.
Defined.

(** X2: Complete is idempotent: running it again on the state it left
    succeeds and changes nothing. *)
Theorem Complete_idempotent (L : Lib) (s s' : State) :
  Complete L s = (Ok tt, s') -> Complete L s' = (Ok tt, s').
Proof.
  intros H. pose proof (Complete_cases L s) as Hc.
  destruct (disk s) as [d|] eqn:Hd; [|by rewrite H in Hc].
  destruct (BuildAgentRegion L (agents (jo s)) (DefaultRegion d)) as [e|cand]
    eqn:Hb.
  { destruct Hc as [Hc _]. by rewrite H in Hc. }
  rewrite H in Hc. injection Hc as ->.
  pose proof (Complete_cases L (completed s d cand)) as Hc'.
  simpl in Hc'. rewrite Hd, Hb in Hc'. rewrite Hc'.
  unfold completed. simpl. by rewrite sets_List_idemp.
Qed.

Lemma Complete_idempotent_witness :
  let s := mkState (mkJoinOptions (deployConfig (Demo.opts0 []))
                      ["10.0.0.1"] ∅ ["b"; "a"; "b"]) [] (Some (Demo.cfg0 true ∅)) ∅ in
  Complete Demo.lib (Complete Demo.lib s).2 = (Ok tt, (Complete Demo.lib s).2).
Proof.
  cbv zeta.
  apply (Complete_idempotent Demo.lib
           (mkState (mkJoinOptions (deployConfig (Demo.opts0 []))
                       ["10.0.0.1"] ∅ ["b"; "a"; "b"]) []
                    (Some (Demo.cfg0 true ∅)) ∅)).
  by vm_compute.
Defined.

(** X3: Complete hands an error back only when the deploy config cannot
    be loaded; agent tokens that do not parse end the process inside
    Complete, with the parser's message.  In both cases nothing was
    sent, written or stored. *)
Theorem Complete_failure_modes (L : Lib) (s : State) :
  (forall e, (Complete L s).1 = Err e -> disk s = None) /\
  (forall e, (Complete L s).1 = Fatal e ->
     exists d, disk s = Some d /\
               BuildAgentRegion L (agents (jo s)) (DefaultRegion d) = inl e) /\
  trace (Complete L s).2 = trace s /\
  disk (Complete L s).2 = disk s /\
  files (Complete L s).2 = files s.
Proof.
  pose proof (Complete_cases L s) as Hc.
  destruct (disk s) as [d|] eqn:Hd.
  - destruct (BuildAgentRegion L (agents (jo s)) (DefaultRegion d))
      as [e|cand] eqn:Hb.
    + destruct Hc as (H1 & H2 & H3 & H4). rewrite H1.
      repeat split; try done. intros e' [= <-]. eauto.
    + rewrite Hc. simpl. by rewrite Hd.
  - rewrite Hc. simpl. by rewrite Hd.
Qed.

(** ** Validation and the outcomes of an invocation *)

(** X4: an invocation without agent tokens ends the process before any
    interaction; when the config loads and the empty token list parses,
    the message is the missing-agent one, also when no server address is
    known: the agent check comes first. *)
Theorem no_agent_is_validation_error (L : Lib) (O : Oracle) (s : State) :
  agents (jo s) = [] ->
  (exists e, (Run L O s).1 = Fatal e) /\
  trace (Run L O s).2 = trace s /\
  disk (Run L O s).2 = disk s /\
  (forall d cand, disk s = Some d ->
                  BuildAgentRegion L [] (DefaultRegion d) = inr cand ->
                  (Run L O s).1 = Fatal no_agent_msg).
Proof.
  intros Ha.
  unfold Run, Complete, DeployConfig_Complete, ValidateArgs, CheckErr, bind.
  destruct (disk s) as [d|] eqn:Hd; simpl; rewrite ?Ha.
  - destruct (BuildAgentRegion L [] (DefaultRegion d)) as [e|cand] eqn:Hb;
      simpl; rewrite ?Ha; simpl.
    + repeat split; eauto. intros d' cand [= <-]. by rewrite Hb.
    + repeat split; eauto.
  - repeat split; eauto. done.
Qed.

Lemma no_agent_is_validation_error_witness :
  let d := mkDeployConfig "/root/.kc/deploy-config.yaml" (mkSSH "root")
             "default" [] ∅ (Demo.mq0 true) (mkOpLog "/var/log" 1) "" false 8081 in
  let r := Run Demo.lenient (Demo.calm Demo.by_key) (Demo.start [] d) in
  r.1 = Fatal no_agent_msg /\ trace r.2 = [].
Proof.
  cbv zeta.
  pose proof (no_agent_is_validation_error Demo.lenient (Demo.calm Demo.by_key)
                (Demo.start []
                   (mkDeployConfig "/root/.kc/deploy-config.yaml" (mkSSH "root")
                      "default" [] ∅ (Demo.mq0 true) (mkOpLog "/var/log" 1)
                      "" false 8081)) eq_refl)
    as (_ & Ht & _ & He).
  split; [|exact Ht]. eapply He; [reflexivity | by vm_compute].
Defined.

Section Outcomes.
Context (L : Lib) (O : Oracle).

Lemma preCheck_agents_bool l s : exists b, (preCheck_agents O l s).1 = Ok b.
Proof.
  revert s. induction l as [|a l IH]; intros s; simpl; [by exists true|].
  unfold bind. pose proof (preCheckKcAgent_result O a s) as Hr.
  destruct (preCheckKcAgent O a s) as [[b|e|e] s1]; simpl in Hr; [|done..].
  destruct b; simpl; [apply IH | by exists false].
Qed.

Lemma preCheck_bool s : exists b, (preCheck O s).1 = Ok b.
Proof.
  unfold preCheck, bind. simpl.
  destruct (sudo_reply O (trace s) _ _); simpl;
    [apply preCheck_agents_bool | by exists false].
Qed.

(** X5: the [Run] closure never hands a Go error back: it returns
    silently after a preflight rejection or after the join, and every
    other failure ends the process. *)
Theorem Run_never_Err (s : State) (e : string) : (Run L O s).1 <> Err e.
Proof.
  destruct (Run_cases L O s) as [(Hf & _)|(d & cand & _ & _ & _ & _ & ->)].
  - unfold Run, CheckErr, bind in *.
    destruct (Complete L s) as [[[]|e1|e1] s1]; simpl in *; try done.
    destruct (ValidateArgs s1) as [[[]|e2|e2] s2]; simpl in *; try done.
    destruct (preCheck_bool s2) as [b Hb].
    destruct (preCheck O s2) as [[b'|e3|e3] s3]; simpl in *; try done.
    destruct b'; simpl in *; [|done].
    by destruct (RunJoinFunc L O s3) as [[[]|e4|e4] s4].
  - unfold preflight_then_join, CheckErr, bind.
    destruct (preCheck_bool (completed s d cand)) as [b Hb].
    destruct (preCheck O (completed s d cand)) as [[b'|e3|e3] s3];
      simpl in *; try done.
    destruct b'; simpl; [|done].
    by destruct (RunJoinFunc L O s3) as [[[]|e4|e4] s4].
Qed.

(** ** What a passing preflight did *)

Lemma preCheckKcAgent_pass ip s :
  (preCheckKcAgent O ip s).1 = Ok true ->
  (preCheckKcAgent O ip s).2 = add_event (EvSSHCmdWithSudo ip probe_cmd) s.
Proof.
  unfold preCheckKcAgent, bind, try, SSHCmdWithSudo. simpl.
  destruct (Agents_Exists _ ip); simpl; [done|].
  destruct (ssh_reply O (trace s) ip probe_cmd) as [res [e|]]; simpl; [done|].
  by destruct ((ExitCode res =? 0)%Z && negb (String.eqb (Stdout res) "")).
Qed.

Lemma preCheck_agents_pass l s :
  (preCheck_agents O l s).1 = Ok true ->
  jo (preCheck_agents O l s).2 = jo s /\
  disk (preCheck_agents O l s).2 = disk s /\
  files (preCheck_agents O l s).2 = files s /\
  trace (preCheck_agents O l s).2 =
    trace s ++ map (fun ip => EvSSHCmdWithSudo ip probe_cmd) l.
Proof.
  revert s. induction l as [|a l IH]; intros s; simpl.
  { intros _. by rewrite app_nil_r. }
  unfold bind. pose proof (preCheckKcAgent_pass a s) as Hp.
  destruct (preCheckKcAgent O a s) as [[b|e|e] s1]; simpl in *; [|done..].
  destruct b; simpl; [|done]. intros H. rewrite (Hp eq_refl) in *.
  destruct (IH _ H) as (J & D & F & T). rewrite J, D, F, T. simpl.
  by rewrite <- app_assoc.
Qed.

Lemma preCheck_unfold s :
  let ips := Agents_ListIP (agentRegion (jo s)) in
  let s1 := add_event (EvSudoPreCheck "sudo" (ips ++ servers (jo s))) s in
  preCheck O s =
  if sudo_reply O (trace s) "sudo" (ips ++ servers (jo s))
  then preCheck_agents O ips s1 else (Ok false, s1).
Proof.
  cbv zeta. unfold preCheck, bind, sudo_PreCheck. simpl.
  by destruct (sudo_reply O (trace s) _ _).
Qed.

(** X6: a preflight that passes made exactly these calls: the sudo check
    over candidates and servers, then one probe per candidate, in the
    order of the candidate list; it changed nothing else. *)
Theorem preCheck_pass_probes_all (s : State) :
  (preCheck O s).1 = Ok true ->
  let ips := Agents_ListIP (agentRegion (jo s)) in
  trace (preCheck O s).2 =
    trace s ++ EvSudoPreCheck "sudo" (ips ++ servers (jo s)) ::
               map (fun ip => EvSSHCmdWithSudo ip probe_cmd) ips /\
  jo (preCheck O s).2 = jo s /\
  disk (preCheck O s).2 = disk s /\
  files (preCheck O s).2 = files s.
Proof.
  cbv zeta. rewrite preCheck_unfold. cbv zeta.
  destruct (sudo_reply O (trace s) _ _); [|done].
  intros H. destruct (preCheck_agents_pass _ _ H) as (J & D & F & T).
  rewrite J, D, F, T. simpl. by rewrite <- app_assoc.
Qed.

(** X7: the preflight always answers with a plain yes or no, transport
    errors included; when the sudo check fails it answers no without
    probing any candidate. *)
Theorem preCheck_rejects_quietly (s : State) :
  (exists b, (preCheck O s).1 = Ok b) /\
  let nodes := Agents_ListIP (agentRegion (jo s)) ++ servers (jo s) in
  (sudo_reply O (trace s) "sudo" nodes = false ->
   preCheck O s = (Ok false, add_event (EvSudoPreCheck "sudo" nodes) s)).
Proof.
  split; [apply preCheck_bool|]. cbv zeta. intros H.
  rewrite preCheck_unfold. cbv zeta. by rewrite H.
Qed.

End Outcomes.

Lemma preCheck_pass_probes_all_witness :
  let s := Demo.ready (Demo.cfg0 true ∅) Demo.two_nodes in
  trace (preCheck (Demo.calm Demo.by_key) s).2 =
    [EvSudoPreCheck "sudo" ["10.0.0.1"; "10.0.0.2"];
     EvSSHCmdWithSudo "10.0.0.1" probe_cmd;
     EvSSHCmdWithSudo "10.0.0.2" probe_cmd].
Proof.
  cbv zeta.
  refine (proj1 (preCheck_pass_probes_all (Demo.calm Demo.by_key)
                   (Demo.ready (Demo.cfg0 true ∅) Demo.two_nodes) _)).
  by vm_compute.
Defined.

(** ** File delivery *)

Section Delivery.
Context (L : Lib) (O : Oracle).

Lemma run_cmdList_Ok node cmds s s' :
  run_cmdList O node cmds s = (Ok tt, s') ->
  trace s' = trace s ++ map (EvSSHCmdWithSudo node) cmds.
Proof.
  revert s. induction cmds as [|cmd cmds IH]; intros s; simpl.
  { intros [= <-]. by rewrite app_nil_r. }
  unfold bind, SSHCmdWithSudo.
  destruct (ssh_reply O (trace s) node cmd) as [res [e|]]; simpl; [done|].
  destruct (Result_Error res); simpl; [done|].
  intros H. rewrite (IH _ H). simpl. by rewrite <- app_assoc.
Qed.



Lemma getKcAgentConfigTemplateContent_Ok region s text s' :
  getKcAgentConfigTemplateContent L O region s = (Ok text, s') ->
  s' = add_event EvUUID s.
Proof.
  unfold getKcAgentConfigTemplateContent.
  destruct (template_Parse L (KcAgentConfigTmpl L)); [done|].
  unfold bind. simpl.
  destruct (ServerIPs (deployConfig (jo s))); [done|].
  destruct (template_Execute L _ _); [done|]. by intros [= _ <-].
Qed.

(** X9: rendering never hands an error back to its caller: it yields the
    text or ends the process; it draws at most one identifier and
    touches nothing else, and when it yields a text it drew exactly
    one. *)
Theorem rendering_outcomes (region : string) (s : State) :
  (forall e, (getKcAgentConfigTemplateContent L O region s).1 <> Err e) /\
  ((getKcAgentConfigTemplateContent L O region s).2 = s \/
   (getKcAgentConfigTemplateContent L O region s).2 = add_event EvUUID s) /\
  (is_Ok (getKcAgentConfigTemplateContent L O region s).1 = true ->
   (getKcAgentConfigTemplateContent L O region s).2 = add_event EvUUID s) /\
  (template_Parse L (KcAgentConfigTmpl L) <> None ->
   (getKcAgentConfigTemplateContent L O region s).2 = s).
Proof.
  unfold getKcAgentConfigTemplateContent.
  destruct (template_Parse L (KcAgentConfigTmpl L)); simpl.
  { repeat split; try done. by left. }
  unfold bind. simpl.
  destruct (ServerIPs (deployConfig (jo s))); simpl.
  { repeat split; try done. by right. }
  destruct (template_Execute L _ _); simpl; repeat split; try done; by right.
Qed.

(** X10: when agentNodeFiles succeeds, the trace shows the binary
    transfer to the node alone, then the certificate steps, then one
    identifier draw, then the three delivery commands on the node: the
    unit file, the directory, and the configuration rendered for this
    region from the loaded deploy config.  Options, file and earlier
    history are untouched. *)
Theorem agentNodeFiles_success_trace (region node : string) (s s' : State) :
  agentNodeFiles L O region node s = (Ok tt, s') ->
  let d := deployConfig (jo s) in
  exists t agentID agentConfig,
    trace s' = trace s ++
      EvSendPackageV2 (Pkg d) [node] (DefaultPkgPath L)
                      (Some (hook_cmd L (Pkg d))) ::
      t ++ EvUUID :: map (EvSSHCmdWithSudo node) (delivery_cmds L agentConfig) /\
    Forall certs_event t /\
    expected_config L region agentID (head (ServerIPs d))
      (StaticServerPort d) (Debug d) (mq d) (opLog d) = Ok agentConfig /\
    jo s' = jo s /\ disk s' = disk s.
Proof.
  cbv zeta. rewrite agentNodeFiles_unfold. cbv zeta.
  set (pkg := Pkg (deployConfig (jo s))).
  set (ev := EvSendPackageV2 pkg [node] (DefaultPkgPath L) (Some (hook_cmd L pkg))).
  destruct (send_then O pkg [node] (DefaultPkgPath L) (Some (hook_cmd L pkg))
              (fun e => errors_Wrap e "SendPackageV2")
              (agentNodeFiles_rest L O region node) s) as [[e ->]| ->];
    [done|].
  fold ev. unfold agentNodeFiles_rest, bind.
  pose proof (sendCerts_fp L O (add_event ev s)) as (J1 & D1 & _ & t & T1 & Ht).
  destruct (sendCerts L O (add_event ev s)) as [[[]|e|e] s1]; [|done..].
  simpl in J1, D1, T1.
  pose proof (getKcAgentConfigTemplateContent_expected L O region s1) as Hx.
  pose proof (getKcAgentConfigTemplateContent_Ok region s1) as Hs2.
  destruct (getKcAgentConfigTemplateContent L O region s1) as [[cfg|e|e] s2];
    [|done..].
  simpl in Hx. specialize (Hs2 cfg s2 eq_refl). subst s2.
  intros H.
  pose proof (run_cmdList_Ok node
              [WrapEcho L (KcAgentService L)
                 "/usr/lib/systemd/system/kc-agent.service";
               mkdir_cmd;
               WrapEcho L cfg "/etc/kubeclipper-agent/kubeclipper-agent.yaml"]
              (add_event EvUUID s1) s' H) as Tk.
  pose proof (run_cmdList_fp O node
              [WrapEcho L (KcAgentService L)
                 "/usr/lib/systemd/system/kc-agent.service";
               mkdir_cmd;
               WrapEcho L cfg "/etc/kubeclipper-agent/kubeclipper-agent.yaml"]
              (add_event EvUUID s1)) as (J3 & D3 & _).
  rewrite H in J3, D3. simpl in Tk, J3, D3.
  exists t, (uuid_reply O (trace s1)), cfg.
  rewrite J1 in Hx.
  split; [|split; [exact Ht|split; [symmetry; exact Hx|split; congruence]]].
  rewrite Tk, T1. simpl. rewrite <- !app_assoc. done.
Qed.

End Delivery.

Lemma agentNodeFiles_success_trace_witness :
  let s := Demo.ready (Demo.cfg0 false ∅) Demo.two_nodes in
  let r := agentNodeFiles Demo.lib (Demo.calm Demo.by_key) "us-west-1"
             "10.0.0.1" s in
  r.1 = Ok tt /\
  exists t agentID agentConfig,
    trace r.2 = trace s ++
      EvSendPackageV2 "/root/kc.tar.gz" ["10.0.0.1"] "/tmp"
        (Some (hook_cmd Demo.lib "/root/kc.tar.gz")) ::
      t ++ EvUUID ::
      map (EvSSHCmdWithSudo "10.0.0.1") (delivery_cmds Demo.lib agentConfig) /\
    Forall certs_event t /\
    expected_config Demo.lib "us-west-1" agentID (Some "10.0.0.10") 8081 false
      (Demo.mq0 false) (mkOpLog "/var/log/kc-agent" 1048576) = Ok agentConfig /\
    jo r.2 = jo s /\ disk r.2 = disk s.
Proof.
  cbv zeta. split; [by vm_compute|].
  apply (agentNodeFiles_success_trace Demo.lib (Demo.calm Demo.by_key)
           "us-west-1" "10.0.0.1"
           (Demo.ready (Demo.cfg0 false ∅) Demo.two_nodes)).
  by vm_compute.
Defined.

(** ** Trust material in detail *)

Section Certs.
Context (L : Lib) (O : Oracle).

(** One round of the download loop. *)
Lemma sendCerts_download_step f fs s :
  let s1 := add_event (EvIsFileExist f) s in
  sendCerts_download O (f :: fs) s =
  match stat_reply O (trace s) f with
  | Some e => (Err (errors_Wrap e "check file exist"), s1)
  | None =>
      if bool_decide (f ∈ files s) then sendCerts_download O fs s1
      else
        match ServerIPs (deployConfig (jo s)) with
        | [] => (Fatal "index out of range", s1)
        | server0 :: _ =>
            let s2 := add_event (EvDownloadSudo server0 f f) s1 in
            match download_reply O (trace s1) server0 f f with
            | Some e => (Err (errors_Wrap e "download cert from server"), s2)
            | None => sendCerts_download O fs (add_file f s2)
            end
        end
  end.
Proof.
  cbv zeta. simpl. unfold bind, wrap_err, IsFileExist.
  destruct (stat_reply O (trace s) f); [done|].
  destruct (bool_decide (f ∈ files s)); simpl; [done|].
  destruct (ServerIPs (deployConfig (jo s))); simpl; [done|].
  unfold DownloadSudo. simpl.
  by destruct (download_reply O _ _ f f).
Qed.

Lemma sendCerts_unfold s :
  let c := jo s in
  let m := mq (deployConfig c) in
  let ips := Agents_ListIP (agentRegion c) in
  sendCerts L O s =
  bind (sendCerts_download O [CA m; ClientCert m; ClientKey m])
       (fun _ =>
          if TLS m then
            SendPackageV2 O (CA m) ips
              (cert_dest L m (DefaultCaPath L) (CA m)) None ;;;
            SendPackageV2 O (ClientCert m) ips
              (cert_dest L m (DefaultNatsPKIPath L) (ClientCert m)) None ;;;
            SendPackageV2 O (ClientKey m) ips
              (cert_dest L m (DefaultNatsPKIPath L) (ClientKey m)) None
          else ret tt) s.
Proof. reflexivity. Qed.

(** X11: with MQ TLS on, a sendCerts that succeeds ends with exactly
    three pushes, CA then client certificate then client key, each to
    the whole candidate list (not only the node being provisioned) and
    each to the directory of its configured path when certificates are
    external, else to the managed directory; before them it only
    checked and downloaded files. *)
Theorem sendCerts_pushes_to_all_candidates (s s' : State) :
  TLS (mq (deployConfig (jo s))) = true ->
  sendCerts L O s = (Ok tt, s') ->
  exists t, trace s' = trace s ++ t ++ push_events L (jo s) /\
            Forall fetch_event t /\
            jo s' = jo s /\ disk s' = disk s.
Proof.
  intros Htls. rewrite sendCerts_unfold. cbv zeta. rewrite Htls. unfold bind.
  pose proof (sendCerts_download_fetch_fp O
                [CA (mq (deployConfig (jo s)));
                 ClientCert (mq (deployConfig (jo s)));
                 ClientKey (mq (deployConfig (jo s)))] s)
    as (J & D & _ & t & T & Ht).
  destruct (sendCerts_download O _ s) as [[[]|e|e] s1]; [|done..].
  simpl in J, D, T. unfold SendPackageV2.
  destruct (send_reply O (trace s1) _ _ _ None); [done|]. simpl.
  destruct (send_reply O _ _ _ _ None); [done|]. simpl.
  destruct (send_reply O _ _ _ _ None); [done|]. simpl.
  intros [= <-]. exists t. simpl. rewrite T, <- !app_assoc.
  unfold push_events. simpl. done.
Qed.

Lemma ext_after (Q : Event -> Prop) s s0 s' t0 :
  trace s0 = trace s ++ t0 -> Forall Q t0 -> ext Q s0 s' -> ext Q s s'.
Proof.
  intros E0 H0 (t & E & Ht). exists (t0 ++ t). split.
  - by rewrite E, E0, app_assoc.
  - by apply Forall_app.
Qed.

Lemma sendCerts_download_missing all (F : gset string) fs s :
  F ⊆ files s -> fs ⊆ all ->
  ext (fetch_of_missing (ServerIPs (deployConfig (jo s))) all F) s
      (sendCerts_download O fs s).2.
Proof.
  revert s. induction fs as [|f fs IH]; intros s HF Hsub; [reflexivity|].
  rewrite sendCerts_download_step. cbv zeta.
  set (Q := fetch_of_missing (ServerIPs (deployConfig (jo s))) all F).
  assert (ext Q s (add_event (EvIsFileExist f) s)) as H1.
  { exists [EvIsFileExist f]. split; [done|]. by repeat constructor. }
  destruct (stat_reply O (trace s) f); [exact H1|].
  destruct (bool_decide (f ∈ files s)) eqn:Hb.
  { etrans; [exact H1|]. apply (IH (add_event (EvIsFileExist f) s)); [done|].
    intros x Hx. apply Hsub. by apply list_elem_of_further. }
  apply bool_decide_eq_false in Hb.
  destruct (ServerIPs (deployConfig (jo s))) as [|server0 rest] eqn:Hsrv;
    [exact H1|].
  assert (Q (EvDownloadSudo server0 f f)) as Hq.
  { unfold Q. simpl. repeat split.
    - apply Hsub, list_elem_of_here.
    - intros Hin. apply Hb. by apply HF. }
  destruct (download_reply O _ server0 f f).
  - apply (ext_after Q s
             (add_event (EvDownloadSudo server0 f f)
                (add_event (EvIsFileExist f) s)) _
             [EvIsFileExist f; EvDownloadSudo server0 f f]);
      [simpl; by rewrite <- app_assoc
      | constructor; [exact I|constructor; [exact Hq|constructor]]
      | reflexivity].
  - apply (ext_after Q s
             (add_file f (add_event (EvDownloadSudo server0 f f)
                (add_event (EvIsFileExist f) s))) _
             [EvIsFileExist f; EvDownloadSudo server0 f f]);
      [simpl; by rewrite <- app_assoc
      | constructor; [exact I|constructor; [exact Hq|constructor]] |].
    unfold Q. rewrite <- Hsrv.
    apply (IH (add_file f (add_event (EvDownloadSudo server0 f f)
                            (add_event (EvIsFileExist f) s)))).
    + simpl. intros x Hx. apply elem_of_union_r. by apply HF.
    + intros x Hx. apply Hsub. by apply list_elem_of_further.
Qed.

(** X12: whatever the TLS flag, sendCerts downloads only files among
    CA, client certificate and client key that are missing from local
    storage when it starts, each from the first server address and to
    the path it has there. *)
Theorem sendCerts_fetches_only_missing (s : State) :
  let m := mq (deployConfig (jo s)) in
  ext (fetch_of_missing (ServerIPs (deployConfig (jo s)))
         [CA m; ClientCert m; ClientKey m] (files s))
      s (sendCerts L O s).2.
Proof.
  cbv zeta. rewrite sendCerts_unfold. cbv zeta. unfold bind.
  set (fs := [CA (mq (deployConfig (jo s)));
              ClientCert (mq (deployConfig (jo s)));
              ClientKey (mq (deployConfig (jo s)))]).
  pose proof (sendCerts_download_missing fs (files s) fs s
                ltac:(done) ltac:(done)) as H.
  destruct (sendCerts_download O fs s) as [[[]|e|e] s1]; simpl in H;
    [|exact H..].
  etrans; [exact H|].
  assert (stable (fp is_push)
    (if TLS (mq (deployConfig (jo s))) then
       SendPackageV2 O (CA (mq (deployConfig (jo s))))
         (Agents_ListIP (agentRegion (jo s)))
         (cert_dest L (mq (deployConfig (jo s))) (DefaultCaPath L)
            (CA (mq (deployConfig (jo s))))) None ;;;
       SendPackageV2 O (ClientCert (mq (deployConfig (jo s))))
         (Agents_ListIP (agentRegion (jo s)))
         (cert_dest L (mq (deployConfig (jo s))) (DefaultNatsPKIPath L)
            (ClientCert (mq (deployConfig (jo s))))) None ;;;
       SendPackageV2 O (ClientKey (mq (deployConfig (jo s))))
         (Agents_ListIP (agentRegion (jo s)))
         (cert_dest L (mq (deployConfig (jo s))) (DefaultNatsPKIPath L)
            (ClientKey (mq (deployConfig (jo s))))) None
     else ret tt)) as Hp.
  { destruct (TLS (mq (deployConfig (jo s)))); stable_tac; done. }
  destruct (Hp s1) as (_ & _ & _ & Hx).
  eapply ext_impl; [|exact Hx]. intros []; simpl; tauto.
Qed.

Lemma sendCerts_download_Fatal fs s e :
  (sendCerts_download O fs s).1 = Fatal e ->
  ServerIPs (deployConfig (jo s)) = [] /\ e = "index out of range".
Proof.
  revert s. induction fs as [|f fs IH]; intros s; [done|].
  rewrite sendCerts_download_step. cbv zeta.
  destruct (stat_reply O (trace s) f); [done|].
  destruct (bool_decide (f ∈ files s)).
  { intros H. by apply IH in H. }
  destruct (ServerIPs (deployConfig (jo s))) as [|server0 rest] eqn:Hsrv.
  { simpl. by intros [= <-]. }
  destruct (download_reply O _ server0 f f); [done|].
  intros H. apply IH in H. simpl in H. by rewrite Hsrv in H.
Qed.

(** X13: sendCerts ends the process in one case only: a file has to be
    downloaded and the deploy config lists no server address, which is
    the out-of-range read of ServerIPs[0]. *)
Theorem sendCerts_fatal_only_without_server (s : State) (e : string) :
  (sendCerts L O s).1 = Fatal e ->
  ServerIPs (deployConfig (jo s)) = [] /\ e = "index out of range".
Proof.
  rewrite sendCerts_unfold. cbv zeta. unfold bind.
  pose proof (sendCerts_download_Fatal
                [CA (mq (deployConfig (jo s)));
                 ClientCert (mq (deployConfig (jo s)));
                 ClientKey (mq (deployConfig (jo s)))] s) as Hd.
  destruct (sendCerts_download O _ s) as [[[]|e1|e1] s1]; simpl in *;
    [|done|by intros [= <-]; apply Hd].
  destruct (TLS (mq (deployConfig (jo s)))); [|done].
  unfold SendPackageV2.
  destruct (send_reply O (trace s1) _ _ _ None); [done|]. simpl.
  destruct (send_reply O _ _ _ _ None); [done|]. simpl.
  by destruct (send_reply O _ _ _ _ None).
Qed.

End Certs.

Lemma sendCerts_pushes_to_all_candidates_witness :
  let s := Demo.ready (Demo.cfg0 true ∅) Demo.two_nodes in
  exists t,
    trace (sendCerts Demo.lib (Demo.calm Demo.by_key) s).2 =
      trace s ++ t ++
      [EvSendPackageV2 "/root/.kc/pki/ca.crt" ["10.0.0.1"; "10.0.0.2"]
         "/etc/kubeclipper-agent/pki" None;
       EvSendPackageV2 "/root/.kc/pki/nats/kc-server-nats-client.crt"
         ["10.0.0.1"; "10.0.0.2"] "/etc/kubeclipper-agent/pki/nats" None;
       EvSendPackageV2 "/root/.kc/pki/nats/kc-server-nats-client.key"
         ["10.0.0.1"; "10.0.0.2"] "/etc/kubeclipper-agent/pki/nats" None] /\
    Forall fetch_event t.
Proof.
  cbv zeta.
  destruct (sendCerts_pushes_to_all_candidates Demo.lib (Demo.calm Demo.by_key)
              (Demo.ready (Demo.cfg0 true ∅) Demo.two_nodes)
              (sendCerts Demo.lib (Demo.calm Demo.by_key)
                 (Demo.ready (Demo.cfg0 true ∅) Demo.two_nodes)).2
              eq_refl ltac:(by vm_compute)) as (t & T & Ht & _).
  exists t. split; [exact T | exact Ht].
Defined.

Lemma sendCerts_fatal_only_without_server_witness :
  let d := mkDeployConfig "/root/.kc/deploy-config.yaml" (mkSSH "root")
             "default" [] ∅ (Demo.mq0 true) (mkOpLog "/var/log" 1) "" false 8081 in
  let s := Demo.ready d Demo.two_nodes in
  (sendCerts Demo.lib (Demo.calm Demo.by_key) s).1 = Fatal "index out of range" /\
  ServerIPs (deployConfig (jo s)) = [].
Proof.
  cbv zeta. split; [by vm_compute|].
  refine (proj1 (sendCerts_fatal_only_without_server Demo.lib
                   (Demo.calm Demo.by_key)
                   (Demo.ready
                      (mkDeployConfig "/root/.kc/deploy-config.yaml"
                         (mkSSH "root") "default" [] ∅ (Demo.mq0 true)
                         (mkOpLog "/var/log" 1) "" false 8081)
                      Demo.two_nodes)
                   "index out of range" _)).
  by vm_compute.
Defined.

(** ** Activation and recording *)

Section Activation.
Context (L : Lib) (O : Oracle).

(** X14: when the activation command cannot be run or exits with a
    non-zero status, enableAgent returns that error behind the prefix
    "enable kc agent: ", and apart from the one command in the trace
    nothing happened: the node is recorded neither in memory nor in the
    file, and no write was attempted. *)
Theorem enableAgent_activation_failure (region node : string) (s : State) :
  activation_ok O s node = false ->
  exists e,
    enableAgent O region node s =
    (Err (errors_Wrap e "enable kc agent"),
     add_event (EvSSHCmdWithSudo node enable_cmd) s).
Proof.
  unfold activation_ok, enableAgent, bind, wrap_err, SSHCmdWithSudo,
    Result_Error.
  destruct (ssh_reply O (trace s) node enable_cmd) as [res [e|]]; simpl.
  - intros _. by exists e.
  - intros ->. simpl. eauto.
Qed.

(** X15: when the activation succeeded but the deploy config cannot be
    written, enableAgent returns the write error as it is; the node is
    then already in the in-memory AgentRegions while the file is what
    it was. *)
Theorem enableAgent_write_failure (region node : string) (s : State)
    (e : string) :
  activation_ok O s node = true ->
  write_reply O (trace s ++ [EvSSHCmdWithSudo node enable_cmd])
              (deployConfig (added region node (jo s))) = Some e ->
  (enableAgent O region node s).1 = Err e /\
  jo (enableAgent O region node s).2 = added region node (jo s) /\
  recorded (AgentRegions (deployConfig (jo (enableAgent O region node s).2)))
           region node /\
  disk (enableAgent O region node s).2 = disk s.
Proof.
  unfold activation_ok, enableAgent, bind, wrap_err, SSHCmdWithSudo,
    Result_Error, DeployConfig_Write.
  destruct (ssh_reply O (trace s) node enable_cmd) as [res [e1|]]; simpl;
    [done|].
  intros -> Hw. simpl. unfold added in Hw. simpl in Hw. rewrite Hw. simpl.
  repeat split. apply recorded_Add. by right.
Qed.

End Activation.

Lemma enableAgent_activation_failure_witness :
  let s := Demo.ready (Demo.cfg0 true ∅) Demo.two_nodes in
  exists e,
    enableAgent (Demo.flaky "10.0.0.2") "default" "10.0.0.2" s =
    (Err (errors_Wrap e "enable kc agent"),
     add_event (EvSSHCmdWithSudo "10.0.0.2" enable_cmd) s).
Proof.
  cbv zeta.
  apply (enableAgent_activation_failure (Demo.flaky "10.0.0.2")
           "default" "10.0.0.2"
           (Demo.ready (Demo.cfg0 true ∅) Demo.two_nodes)).
  by vm_compute.
Defined.

Lemma enableAgent_write_failure_witness :
  let s := Demo.ready (Demo.cfg0 true ∅) Demo.two_nodes in
  let r := enableAgent Demo.readonly "default" "10.0.0.1" s in
  r.1 = Err "permission denied" /\
  jo r.2 = added "default" "10.0.0.1" (jo s) /\
  recorded (AgentRegions (deployConfig (jo r.2))) "default" "10.0.0.1" /\
  disk r.2 = disk s.
Proof.
  cbv zeta.
  apply (enableAgent_write_failure Demo.readonly "default" "10.0.0.1"
           (Demo.ready (Demo.cfg0 true ∅) Demo.two_nodes) "permission denied");
    reflexivity.
Defined.

(** ** A completed join *)

Lemma elem_of_nodes_in_order (m : Agents) regions region ip :
  (region, ip) ∈ nodes_in_order m regions <->
  region ∈ regions /\ ip ∈ default [] (m !! region).
Proof.
  unfold nodes_in_order. rewrite list_elem_of_In, in_flat_map. split.
  - intros (r & Hr & Hin). apply in_map_iff in Hin as (a & [= <- <-] & Ha).
    split; by apply list_elem_of_In.
  - intros [Hr Hin]. exists region. split; [by apply list_elem_of_In|].
    apply in_map_iff. exists ip. split; [done|]. by apply list_elem_of_In.
Qed.

Lemma elem_of_visit_order (O : Oracle) s region ip :
  range_ok O ->
  (region, ip) ∈ visit_order O s <-> recorded (agentRegion (jo s)) region ip.
Proof.
  intros Hok. unfold visit_order, recorded.
  rewrite elem_of_nodes_in_order, (Hok (trace s) (agentRegion (jo s))).
  rewrite list_elem_of_fmap. split.
  - intros [([r l] & -> & Hrl) Hin]. apply elem_of_map_to_list in Hrl.
    simpl in *. rewrite Hrl in Hin. eauto.
  - intros (l & Hl & Hin). split.
    + exists (region, l). split; [done|]. by apply elem_of_map_to_list.
    + by rewrite Hl.
Qed.

Lemma RunJoinFunc_agent (L : Lib) (O : Oracle) s :
  RunJoinFunc L O s = wrap_err agent_failed (runJoinAgentNode L O) s.
Proof.
  unfold RunJoinFunc, RunJoinNode, bind, wrap_err at 1.
  by rewrite runJoinServerNode_noop.
Qed.

(** X16: when Go's range visits every region and the invocation ends
    with the join completed, the deploy-config file holds exactly the
    agents it held before and the candidates, each candidate under its
    region. *)
Theorem Run_joined_records_all (L : Lib) (O : Oracle) (s : State)
    (d : DeployConfig) :
  range_ok O ->
  disk s = Some d ->
  (Run L O s).1 = Ok ExitJoined ->
  exists cand,
    BuildAgentRegion L (agents (jo s)) (DefaultRegion d) = inr cand /\
    forall region ip,
      persisted (Run L O s).2 region ip <->
      recorded (AgentRegions d) region ip \/ recorded cand region ip.
Proof.
  intros Hok Hd Hr.
  destruct (Run_cases L O s) as [(Hf & _)|(d' & cand & Hd' & _ & _ & Hb & Heq)].
  { rewrite Hr in Hf. done. }
  rewrite Hd in Hd'. injection Hd' as <-. exists cand. split; [done|].
  rewrite Heq in *. clear Heq. revert Hr.
  unfold preflight_then_join, bind.
  pose proof (preCheck_fp O (completed s d cand)) as (J & D & _).
  destruct (preCheck O (completed s d cand)) as [[b|e|e] s2]; [|done..].
  simpl in J, D. destruct b; simpl; [|done].
  unfold CheckErr. rewrite RunJoinFunc_agent. unfold wrap_err.
  destruct (runJoinAgentNode L O s2) as [[[]|e|e] s3] eqn:Hj; simpl; [|done..].
  intros _ region ip.
  assert (loaded s2) as Hl.
  { exists d. rewrite D, J. simpl. by rewrite Hd. }
  rewrite runJoinAgentNode_seq in Hj.
  rewrite (join_seq_persisted L O _ s2 s3 region ip Hl Hj).
  rewrite (elem_of_visit_order O s2 region ip Hok), J. simpl.
  unfold persisted. rewrite D. simpl. rewrite Hd. split.
  - intros [(? & [= <-] & H)|H]; auto.
  - intros [H|H]; eauto.
Qed.

Lemma Run_joined_records_all_witness :
  let s := Demo.start ["us-west-1:1.2.3.4"; "us-west-2:2.3.4.5"]
             (Demo.cfg0 true Demo.one_known) in
  let r := Run Demo.lib (Demo.calm Demo.ascending) s in
  r.1 = Ok ExitJoined /\
  exists cand,
    BuildAgentRegion Demo.lib (agents (jo s)) "default" = inr cand /\
    forall region ip,
      persisted r.2 region ip <->
      recorded Demo.one_known region ip \/ recorded cand region ip.
Proof.
  cbv zeta. split; [by vm_compute|].
  apply (Run_joined_records_all Demo.lib (Demo.calm Demo.ascending)
           (Demo.start ["us-west-1:1.2.3.4"; "us-west-2:2.3.4.5"]
              (Demo.cfg0 true Demo.one_known))
           (Demo.cfg0 true Demo.one_known)).
  - apply ascending_range_ok.
  - reflexivity.
  - by vm_compute.
Defined.

(** ** One write per node *)

Lemma writes_files_event node t : Forall (files_event node) t -> writes t = [].
Proof.
  induction 1 as [|e t He _ IH]; [done|]. simpl. rewrite IH.
  destruct e as [| | ? ? ? [hk|] | | | |]; simpl in *; tauto.
Qed.

Section Writes.
Context (L : Lib) (O : Oracle).

Lemma joinNode_counts rn s :
  exists t, trace (joinNode L O rn s).2 = trace s ++ t /\
            length (provisioned t) = 1%nat /\
            (length (writes t) <= 1)%nat /\
            (is_Ok (joinNode L O rn s).1 = true -> length (writes t) = 1%nat).
Proof.
  unfold joinNode, bind.
  destruct (agentNodeFiles_fp L O rn.1 rn.2 s) as (_ & _ & _ & t & E & Ht).
  pose proof (provisioned_files_event _ _ Ht) as Hp.
  pose proof (writes_files_event _ _ Ht) as Hw.
  destruct (agentNodeFiles L O rn.1 rn.2 s) as [[[]|e|e] s1]; simpl in E.
  - destruct (enableAgent_cases O rn.1 rn.2 s1) as [[N ->]|[[N ->]|[N ->]]];
      rewrite ?N; simpl; rewrite E, <- !app_assoc;
      eexists; (split; [reflexivity|]); simpl;
      rewrite provisioned_app, writes_app, Hp, Hw; simpl;
      repeat split; (lia || done).
  - eexists. split; [exact E|]. simpl. rewrite Hp, Hw. simpl.
    repeat split; (lia || done).
  - eexists. split; [exact E|]. simpl. rewrite Hp, Hw. simpl.
    repeat split; (lia || done).
Qed.

Lemma join_seq_counts l s :
  exists t, trace (join_seq L O l s).2 = trace s ++ t /\
            (length (writes t) <= length (provisioned t))%nat /\
            (length (provisioned t) <= S (length (writes t)))%nat /\
            (is_Ok (join_seq L O l s).1 = true ->
             length (writes t) = length l /\ length (provisioned t) = length l).
Proof.
  revert s. induction l as [|rn l IH]; intros s; simpl.
  { exists []. rewrite app_nil_r. simpl. repeat split; lia. }
  unfold bind.
  destruct (joinNode_counts rn s) as (t1 & E1 & P1 & W1 & Wok).
  destruct (joinNode L O rn s) as [[[]|e|e] s1]; simpl in E1, Wok.
  - specialize (Wok eq_refl).
    destruct (IH s1) as (t2 & E2 & A & B & C).
    exists (t1 ++ t2).
    rewrite E2, E1, app_assoc, provisioned_app, writes_app, !length_app.
    split; [done|]. repeat split; try lia; destruct (C H); lia.
  - exists t1. simpl. repeat split; try done; lia.
  - exists t1. simpl. repeat split; try done; lia.
Qed.

(** X17: in the join loop every provisioned node is followed by at most
    one write of the deploy config, and a node is provisioned only
    after all nodes before it were written: the trace never holds more
    writes than provisioned nodes and at most one node more than
    writes.  A loop that succeeds wrote once per candidate it visited. *)
Theorem one_write_per_node (s : State) :
  exists t, trace (runJoinAgentNode L O s).2 = trace s ++ t /\
            (length (writes t) <= length (provisioned t))%nat /\
            (length (provisioned t) <= S (length (writes t)))%nat /\
            (is_Ok (runJoinAgentNode L O s).1 = true ->
             length (writes t) = length (visit_order O s) /\
             length (provisioned t) = length (visit_order O s)).
Proof. rewrite runJoinAgentNode_seq. apply join_seq_counts. Qed.

(** ** Preflight comes first *)

Lemma extends_ext (Q : Event -> Prop) pre s s' :
  ext Q s s' -> extends pre s -> extends pre s'.
Proof.
  intros (t & E & _) (t0 & E0). exists (t0 ++ t).
  by rewrite E, E0, app_assoc.
Qed.

Lemma RunJoinFunc_extends pre s :
  extends pre s -> extends pre (RunJoinFunc L O s).2.
Proof.
  intros Hs.
  pose proof (triple_RunJoinFunc L O (extends pre) (extends pre)) as H.
  specialize (H ltac:(done)).
  assert (forall s1 s2, fp routine s1 s2 -> extends pre s1 -> extends pre s2)
    as Hr.
  { intros s1 s2 (_ & _ & _ & Hx). exact (extends_ext _ pre _ _ Hx). }
  specialize (H Hr).
  assert (forall fs, triple (extends pre) (sendCerts_download O fs)
                            (fun _ => extends pre) (extends pre)) as Hd.
  { intros fs. apply triple_keeps; [done|]. intros s1.
    destruct (sendCerts_download_fetch_fp O fs s1) as (_ & _ & _ & Hx).
    exact (extends_ext _ pre _ _ Hx). }
  specialize (H Hd).
  assert (forall region node,
            triple (extends pre) (enableAgent O region node)
                   (fun _ => extends pre) (extends pre)) as He.
  { intros region node. apply triple_keeps; [done|]. intros s1 (t0 & E0).
    destruct (enableAgent_cases O region node s1) as [[_ ->]|[[_ ->]|[_ ->]]];
      unfold extends; simpl; rewrite E0, <- !app_assoc; by eexists. }
  specialize (H He s Hs).
  by destruct (RunJoinFunc L O s) as [[a|e|e] s1].
Qed.

Lemma provisioned_preflight ips t :
  Forall (preflight_event ips) t -> provisioned t = [].
Proof.
  induction 1 as [|e t He _ IH]; [done|]. simpl. rewrite IH.
  destruct e; simpl in *; tauto.
Qed.

(** X18: in an invocation that starts with an empty history, no node is
    provisioned unless the sudo check passed and every candidate was
    probed and accepted first: as soon as the trace holds a binary
    transfer, it begins with the sudo check and one probe per candidate
    in the order of the candidate list. *)
Theorem preflight_precedes_provisioning (s : State) :
  trace s = [] ->
  provisioned (trace (Run L O s).2) <> [] ->
  exists d cand t,
    disk s = Some d /\
    BuildAgentRegion L (agents (jo s)) (DefaultRegion d) = inr cand /\
    trace (Run L O s).2 =
      EvSudoPreCheck "sudo"
        (Agents_ListIP cand ++ sets_List (servers (jo s))) ::
      map (fun ip => EvSSHCmdWithSudo ip probe_cmd) (Agents_ListIP cand) ++ t.
Proof.
  intros Ht Hp.
  destruct (Run_cases L O s) as [(_ & E & _)|(d & cand & Hd & _ & _ & Hb & Heq)].
  { rewrite E, Ht in Hp. done. }
  rewrite Heq in *. clear Heq. exists d, cand.
  revert Hp. unfold preflight_then_join, bind.
  set (s1 := completed s d cand).
  pose proof (preCheck_fp O s1) as (_ & _ & _ & tp & Ep & Hfp).
  pose proof (preCheck_unfold O s1) as Hu. cbv zeta in Hu.
  pose proof (preCheck_agents_pass O (Agents_ListIP (agentRegion (jo s1)))
    (add_event (EvSudoPreCheck "sudo"
       (Agents_ListIP (agentRegion (jo s1)) ++ servers (jo s1))) s1)) as Ha.
  destruct (sudo_reply O (trace s1) "sudo" _).
  2:{ rewrite Hu. simpl. rewrite Ht. simpl. done. }
  rewrite <- Hu in Ha.
  destruct (preCheck O s1) as [[b|e|e] s2]; simpl in *.
  - destruct b; simpl.
    + destruct (Ha eq_refl) as (_ & _ & _ & T). rewrite Ht in T. simpl in T.
      intros _.
      assert (extends (trace s2) (CheckErr (RunJoinFunc L O) s2).2) as (t & E).
      { unfold CheckErr.
        pose proof (RunJoinFunc_extends (trace s2) s2
                      ltac:(exists []; by rewrite app_nil_r)) as H.
        by destruct (RunJoinFunc L O s2) as [[a|e|e] s3]. }
      exists t. split; [done|]. split; [done|].
      destruct (CheckErr (RunJoinFunc L O) s2) as [[a|e|e] s3]; simpl in *;
        rewrite E, T; simpl; done.
    + rewrite Ep, Ht. simpl. by rewrite (provisioned_preflight _ _ Hfp).
  - rewrite Ep, Ht. simpl. by rewrite (provisioned_preflight _ _ Hfp).
  - rewrite Ep, Ht. simpl. by rewrite (provisioned_preflight _ _ Hfp).
Qed.

Lemma preCheck_agents_files l s : files (preCheck_agents O l s).2 = files s.
Proof.
  revert s. induction l as [|a l IH]; intros s; simpl; [done|].
  unfold bind, preCheckKcAgent at 1, bind, try, SSHCmdWithSudo. simpl.
  destruct (Agents_Exists _ a); simpl; [done|].
  destruct (ssh_reply O (trace s) a probe_cmd) as [res [e|]]; simpl; [done|].
  destruct ((ExitCode res =? 0)%Z && negb (String.eqb (Stdout res) ""));
    simpl; [done|]. by rewrite IH.
Qed.

Lemma preCheck_files s : files (preCheck O s).2 = files s.
Proof.
  rewrite preCheck_unfold. cbv zeta.
  destruct (sudo_reply O _ _ _); [|done]. by rewrite preCheck_agents_files.
Qed.

(** X19: whenever the invocation returns from the preflight, for
    whatever reason, the deploy-config file is unchanged, nothing was
    provisioned, and the only calls made were the sudo check and
    read-only probes of candidates. *)
Theorem preflight_exit_is_pure (s : State) :
  (Run L O s).1 = Ok ExitPreflight ->
  disk (Run L O s).2 = disk s /\
  files (Run L O s).2 = files s /\
  ext (preflight_event (Agents_ListIP (agentRegion (jo (Run L O s).2))))
      s (Run L O s).2.
Proof.
  intros Hr.
  destruct (Run_cases L O s) as [(Hf & _)|(d & cand & Hd & _ & _ & Hb & Heq)].
  { rewrite Hr in Hf. done. }
  rewrite Heq in *. clear Heq. revert Hr.
  unfold preflight_then_join, bind.
  pose proof (preCheck_fp O (completed s d cand)) as (J & D & _ & E).
  pose proof (preCheck_files (completed s d cand)) as F.
  destruct (preCheck O (completed s d cand)) as [[b|e|e] s2]; [|done..].
  simpl in *. destruct b; simpl.
  - by destruct (CheckErr (RunJoinFunc L O) s2) as [[[]|e|e] s3].
  - intros _. rewrite J. simpl. done.
Qed.

End Writes.

Lemma preflight_precedes_provisioning_witness :
  let s := Demo.start ["10.0.0.1,10.0.0.2"] (Demo.cfg0 true ∅) in
  exists d cand t,
    disk s = Some d /\
    BuildAgentRegion Demo.lib (agents (jo s)) (DefaultRegion d) = inr cand /\
    trace (Run Demo.lib (Demo.flaky "10.0.0.2") s).2 =
      EvSudoPreCheck "sudo"
        (Agents_ListIP cand ++ sets_List (servers (jo s))) ::
      map (fun ip => EvSSHCmdWithSudo ip probe_cmd) (Agents_ListIP cand) ++ t.
Proof.
  cbv zeta.
  apply (preflight_precedes_provisioning Demo.lib (Demo.flaky "10.0.0.2")
           (Demo.start ["10.0.0.1,10.0.0.2"] (Demo.cfg0 true ∅)));
    [reflexivity | by vm_compute].
Defined.

Lemma preflight_exit_is_pure_witness :
  let s := Demo.start ["10.0.0.1,10.0.0.2"] (Demo.cfg0 true Demo.one_known) in
  let r := Run Demo.lib (Demo.calm Demo.by_key) s in
  disk r.2 = disk s /\ files r.2 = files s /\
  ext (preflight_event (Agents_ListIP (agentRegion (jo r.2)))) s r.2.
Proof.
  cbv zeta.
  apply (preflight_exit_is_pure Demo.lib (Demo.calm Demo.by_key)
           (Demo.start ["10.0.0.1,10.0.0.2"] (Demo.cfg0 true Demo.one_known))).
  by vm_compute.
Defined.

(** ** The fields handed to the template *)

(** X20: the data map of a rendering has the eleven fixed fields and,
    exactly when MQ TLS is on, the three certificate paths; these are
    the configured paths when certificates are external and paths under
    the agent's config directory otherwise.  The log level is "debug"
    with the debug flag and "info" without. *)
Theorem agent_config_fields (L : Lib) (region agentID server0 : string)
    (port : Z) (debug : bool) (m : MQ) (ol : OpLog) :
  let data := agent_config_data L region agentID server0 port debug m ol in
  dom data = base_keys ∪ (if TLS m then tls_keys else ∅) /\
  data !! "LogLevel" = Some (VString (if debug then "debug" else "info")) /\
  data !! "MQCaPath" =
    (if TLS m then
       Some (VString (if External m then CA m
                      else filepath_Join L [DefaultKcAgentConfigPath L;
                                            DefaultCaPath L;
                                            filepath_Base L (CA m)]))
     else None) /\
  data !! "MQClientCertPath" =
    (if TLS m then
       Some (VString (if External m then ClientCert m
                      else filepath_Join L [DefaultKcAgentConfigPath L;
                                            DefaultNatsPKIPath L;
                                            filepath_Base L (ClientCert m)]))
     else None) /\
  data !! "MQClientKeyPath" =
    (if TLS m then
       Some (VString (if External m then ClientKey m
                      else filepath_Join L [DefaultKcAgentConfigPath L;
                                            DefaultNatsPKIPath L;
                                            filepath_Base L (ClientKey m)]))
     else None).
Proof.
  cbv zeta. unfold agent_config_data, tls_fields, base_keys, tls_keys.
  split.
  { destruct (TLS m), (External m); rewrite !dom_insert_L, dom_empty_L;
      simpl; set_solver. }
  destruct (TLS m), (External m), debug; repeat split;
    simplify_map_eq; done.
Qed.

(** ** Every candidate once *)

Lemma nodes_in_order_buckets (m : Agents) (l0 : list (string * list string)) :
  (forall rl, rl ∈ l0 -> m !! rl.1 = Some rl.2) ->
  (nodes_in_order m l0.*1).*2 = concat l0.*2.
Proof.
  induction l0 as [|[r l] l0 IH]; intros H; [done|].
  change (((r, l) :: l0).*1) with (r :: l0.*1).
  change (((r, l) :: l0).*2) with (l :: l0.*2).
  change (nodes_in_order m (r :: l0.*1))
    with (map (fun a => (r, a)) (default [] (m !! r)) ++
          nodes_in_order m l0.*1).
  rewrite fmap_app, IH.
  - change (concat (l :: l0.*2)) with (l ++ concat l0.*2). f_equal.
    pose proof (H (r, l) (list_elem_of_here _ _)) as Hr. simpl in Hr.
    rewrite Hr. simpl.
    clear. induction l as [|a l IH]; [done|]. simpl. by f_equal.
  - intros rl Hrl. apply H. by apply list_elem_of_further.
Qed.

Lemma visit_order_addresses (O : Oracle) s :
  range_ok O ->
  (visit_order O s).*2 ≡ₚ Agents_ListIP (agentRegion (jo s)).
Proof.
  intros Hok. rewrite (visit_order_Permutation O s Hok).
  unfold Agents_ListIP. rewrite nodes_in_order_buckets; [done|].
  intros [r l] H. by apply elem_of_map_to_list.
Qed.

(** X21: when Go's range visits every region and the join loop
    succeeds, the nodes whose provisioning began are the candidate
    addresses, each as often as it is listed, in some order. *)
Theorem every_candidate_provisioned_once (L : Lib) (O : Oracle) (s s' : State) :
  range_ok O ->
  runJoinAgentNode L O s = (Ok tt, s') ->
  exists t, trace s' = trace s ++ t /\
            provisioned t ≡ₚ Agents_ListIP (agentRegion (jo s)).
Proof.
  intros Hok H. rewrite runJoinAgentNode_seq in H.
  destruct (join_seq_provisioned L O (visit_order O s) s) as (t & E & _ & P).
  rewrite H in E, P. simpl in E, P. exists t. split; [done|].
  rewrite (P eq_refl). by apply visit_order_addresses.
Qed.

Lemma every_candidate_provisioned_once_witness :
  let s := Demo.ready (Demo.cfg0 true ∅) Demo.two_regions in
  exists t,
    trace (runJoinAgentNode Demo.lib (Demo.calm Demo.descending) s).2 =
      trace s ++ t /\
    provisioned t ≡ₚ Agents_ListIP Demo.two_regions.
Proof.
  cbv zeta.
  apply (every_candidate_provisioned_once Demo.lib (Demo.calm Demo.descending)
           (Demo.ready (Demo.cfg0 true ∅) Demo.two_regions)).
  - apply descending_range_ok.
  - by vm_compute.
Defined.

(** X22: with no candidate address, which is the case of an empty
    candidate map and of regions whose buckets are all empty, the join
    loop succeeds at once: nothing is sent, written or recorded. *)
Theorem join_without_candidates (L : Lib) (O : Oracle) (s : State) :
  range_ok O ->
  Agents_ListIP (agentRegion (jo s)) = [] ->
  runJoinAgentNode L O s = (Ok tt, s).
Proof.
  intros Hok Hnil. rewrite runJoinAgentNode_seq.
  pose proof (visit_order_addresses O s Hok) as Hp.
  rewrite Hnil in Hp. apply Permutation_nil_r in Hp.
  apply fmap_nil_inv in Hp. by rewrite Hp.
Qed.

Lemma join_without_candidates_witness :
  let s := Demo.ready (Demo.cfg0 true ∅) {[ "us-west-1" := [] ]} in
  runJoinAgentNode Demo.lib (Demo.calm Demo.ascending) s = (Ok tt, s).
Proof.
  cbv zeta.
  apply (join_without_candidates Demo.lib (Demo.calm Demo.ascending)).
  - apply ascending_range_ok.
  - by vm_compute.
Defined.

(** * Properties of the documentation generator *)

Module DocsProps.
Import Docs.

Lemma string_app_cons a s t : String a s +:+ t = String a (s +:+ t).
Proof. reflexivity. Qed.

Lemma string_app_assoc (s t u : string) : (s +:+ t) +:+ u = s +:+ (t +:+ u).
Proof.
  induction s as [|a s IH]; [done|].
  by rewrite !string_app_cons, IH.
Qed.

(** Induction over a command tree, with the property known for all
    children. *)
Lemma CobraCommand_tree_ind (P : CobraCommand -> Prop) :
  (forall use long short example nonInherited inherited commands,
     Forall P commands ->
     P (Cobra use long short example nonInherited inherited commands)) ->
  forall c, P c.
Proof.
  intros H. fix IH 1. intros [use long short example fl1 fl2 commands].
  apply H. induction commands as [|c cs IHcs]; constructor; [apply IH|exact IHcs].
Qed.

Lemma NewSubCommands_unfold c path :
  NewSubCommands c path =
  NewCommand c (path +:+ cobra_Name c) ::
  flat_map (fun sub => NewSubCommands sub ((path +:+ cobra_Name c) +:+ " "))
           (cobra_Commands c).
Proof. by destruct c. Qed.

(** X23: NewSubCommands lists every command of the tree once: the
    result has as many entries as the tree has commands, and it starts
    with the entry of the command itself under the path extended by its
    name. *)
Theorem NewSubCommands_covers_tree (c : CobraCommand) (path : string) :
  length (NewSubCommands c path) = size c /\
  head (NewSubCommands c path) = Some (NewCommand c (path +:+ cobra_Name c)).
Proof.
  split; [|by destruct c].
  revert path. induction c as [use long short example fl1 fl2 commands IH]
    using CobraCommand_tree_ind.
  intros path. simpl. f_equal.
  generalize ((path +:+ before_space use) +:+ " "). intros p.
  induction IH as [|c cs Hc _ IHcs]; [done|].
  simpl. by rewrite length_app, Hc, IHcs.
Qed.

Lemma chains_nonempty c ch : ch ∈ chains c -> ch <> [].
Proof.
  destruct c as [use long short example fl1 fl2 commands]. simpl.
  intros [->|H]%elem_of_cons; [done|].
  apply list_elem_of_fmap in H as (ch' & -> & _). done.
Qed.

Lemma concat_cons_nonempty sep x (xs : list string) :
  xs <> [] -> String.concat sep (x :: xs) = x +:+ sep +:+ String.concat sep xs.
Proof. by destruct xs. Qed.

(** X24: the paths NewSubCommands assigns spell the chain of command
    names from the root of the walk down to each command, separated by
    single spaces and put behind the given prefix; the entries come
    parents first, siblings in their order. *)
Theorem NewSubCommands_paths (c : CobraCommand) (path : string) :
  map Path (NewSubCommands c path) =
  map (fun ch => path +:+ String.concat " " ch) (chains c).
Proof.
  revert path. induction c as [use long short example fl1 fl2 commands IH]
    using CobraCommand_tree_ind.
  intros path. simpl. f_equal.
  rewrite <- list_fmap_compose.
  set (n := before_space use).
  induction IH as [|c cs Hc _ IHcs]; [done|].
  simpl. rewrite !fmap_app, <- IHcs. f_equal.
  rewrite Hc. apply map_ext_in. intros ch Hch.
  apply list_elem_of_In, chains_nonempty in Hch. unfold compose.
  rewrite (concat_cons_nonempty " " n ch Hch).
  by rewrite !string_app_assoc.
Qed.

(** X25: every top-level entry gets the empty path, so the order
    relation by which NewTopLevelCommands sorts its entries never holds
    between two of them: sorting cannot be told to put any entry before
    another. *)
Theorem top_level_order_is_empty (sort : list Command -> list Command)
    (cs : list CobraCommand) (a b : TopLevelCommand) :
  a ∈ map (NewTopLevelCommand sort) cs ->
  b ∈ map (NewTopLevelCommand sort) cs ->
  Path (MainCommand a) = "" /\ TopLevelCommands_Less a b = false.
Proof.
  intros (ca & -> & _)%list_elem_of_fmap (cb & -> & _)%list_elem_of_fmap.
  done.
Qed.

Lemma top_level_order_is_empty_witness :
  let join := NewTopLevelCommand (fun l => l)
                (Cobra "join [flags]" "" "join kubeclipper agent and server node"
                   "" [mkFlag "agent" "" "[]" "join agent node.";
                       mkFlag "deploy-config" "" "" "kcctl deploy config path"]
                   [] []) in
  let get := NewTopLevelCommand (fun l => l)
               (Cobra "get (--filename | resource)" "" "" "" [] []
                  [Cobra "node" "" "" "" [] [] []]) in
  Path (MainCommand get) = "" /\ TopLevelCommands_Less get join = false.
Proof.
  cbv zeta.
  apply (top_level_order_is_empty (fun l => l) (cobra_Commands sample)).
  - apply list_elem_of_further, list_elem_of_here.
  - apply list_elem_of_here.
Defined.

End DocsProps.
